(** * StreamPad: controller input normalisation and the note lifecycle

    A shallow embedding of [streampad.py] (class [StreamPadPygame]) and of
    the button table of its earlier variant [streampad_pygame.py].

    Conventions of the embedding.
    - Python [float]s are IEEE binary64 numbers: Rocq's primitive floats,
      with the same rounding.  Python [int]s are [Z]; [Z2f] is [float(n)].
    - [dict]s are [gmap]s; a [dict] literal is written as the list of its
      items and turned into a map with [list_to_map].
    - [DDRNote] objects are mutable and shared between [self.notes] and
      [self.active_notes]: they live in a store ([note_objects]) and both
      collections hold references (indices into the store).
    - What the code reads from outside (the clock, the focus of the
      window, the device) is a field of the state that the environment
      may change between two calls.
    - [self.global_input_lock] is a [threading.Lock], which is not
      re-entrant: a thread that acquires it while holding it blocks for
      ever.  The lock is a flag of the state and the result of a call is
      an [outcome].
    - A run is a sequence of calls, each of them run to its end: the
      interleaving of the two threads inside a call is not modelled.  A
      call that blocks is no step of a run: the state in which the
      polling thread holds the lock for ever is not a state of a run,
      and what the foreground path does with the lock held is stated
      apart.

    The embedding covers the button table, the two emission functions,
    the notes ([create_ddr_note], [end_ddr_note], [update_ddr_notes]),
    [emergency_cleanup], [validate_button_states] with the timer of [run],
    the joystick branches of [handle_events], the axes, the polling
    thread and the detection of the controller family.  The management
    of the controllers and the drawing are left out. *)

From Stdlib Require Import ZArith Floats.PrimFloat.
From stdpp Require Import gmap strings list fin_maps.

Local Open Scope string_scope.

(* 0.08 and 0.15 stand for the nearest binary64 numbers, as in Python. *)
Set Warnings "-inexact-float".

(** ** Numbers *)

(** [float(p)] for a positive integer, exact below 2^53. *)
Fixpoint pos2f (p : positive) : float :=
  match p with
  | xH => 1%float
  | xO q => (2 * pos2f q)%float
  | xI q => (2 * pos2f q + 1)%float
  end.

Definition Z2f (n : Z) : float :=
  match n with
  | Z0 => 0%float
  | Zpos p => pos2f p
  | Zneg p => (- pos2f p)%float
  end.

(** Truth value of a float in a condition: false for [0.0] and [-0.0]. *)
Definition float_truthy (f : float) : bool := negb (f =? 0)%float.

(** Truth value of a [str]: false for the empty string only. *)
Definition str_truthy (s : string) : bool := negb (String.eqb s "").

(** ** Constants of the module and of [__init__] *)

Definition BUTTON_ORDER : list string :=
  ["14"; "12"; "15"; "13"; "2"; "3"; "0"; "1"; "4"; "5"; "6"; "7"; "8"; "9"].

Definition button_colors : gmap string (Z * Z * Z) :=
  list_to_map
    [("14", (255, 20, 147)%Z); ("12", (0, 255, 255)%Z);
     ("15", (50, 205, 50)%Z);  ("13", (255, 215, 0)%Z);
     ("4", (255, 69, 0)%Z);    ("5", (148, 0, 211)%Z);
     ("6", (255, 140, 0)%Z);   ("7", (138, 43, 226)%Z);
     ("8", (30, 144, 255)%Z);  ("9", (255, 105, 180)%Z);
     ("2", (255, 255, 0)%Z);   ("3", (65, 105, 225)%Z);
     ("0", (0, 255, 127)%Z);   ("1", (255, 99, 71)%Z)].

Definition SCREEN_WIDTH : Z := 1200.
Definition SCREEN_HEIGHT : Z := 600.

(** [self.note_speed = 0.15 * 1000], [self.growth_rate = 0.08 * 1000]. *)
Definition note_speed : float := (0.15 * 1000)%float.
Definition growth_rate : float := (0.08 * 1000)%float.
Definition min_note_height : Z := 8.
(** [self.initial_bottom] (the field of the same name of a note is
    [initial_bottom] below). *)
Definition self_initial_bottom : Z := 5.
Definition hat_button_debounce_ms : Z := 30.
(** [validation_interval] of [run]. *)
Definition validation_interval : float := 2%float.

(** ** Data *)

Inductive ControllerType :=
  SWITCH_PRO | SNES_SWITCH | PS4 | PS5 | XBOX | GENERIC.

Record DDRNote := mkDDRNote {
  x : float;
  y : float;
  width : float;
  height : float;
  color : Z * Z * Z;
  button_id : string;
  start_time : float;
  end_time : option float;
  is_growing : bool;
  initial_bottom : float;
}.

(** What the code reads from a [pygame.joystick.Joystick]. *)
Record Joystick := mkJoystick {
  get_name : string;
  get_instance_id : Z;
  get_init : bool;
  buttons : list bool;      (* [get_button(i)], [get_numbuttons()] *)
  hats : list (Z * Z);      (* [get_hat(i)], [get_numhats()] *)
}.

(** The two lines that [on_button_press] and [on_button_release] print
    when they change the state. *)
Inductive Emission :=
  | Pressed (button_id : string)
  | Released (button_id : string).

Inductive exn := TypeError | AttributeError | PygameError.

(** The attributes of [StreamPadPygame] that the input and note logic
    uses, and what it reads from outside. *)
Record StreamPad := mkStreamPad {
  clock : float;                        (* [time.time()] *)
  display_active : bool;                (* [pygame.display.get_active()] *)
  active_controller : option Joystick;
  controller_type : ControllerType;
  button_states : gmap string bool;
  last_button_states : gmap string bool;
  last_axis_states : gmap string bool;
  last_hat_state : Z * Z;
  lane_width : Z;
  lane_height : Z;
  note_objects : list DDRNote;          (* the store of note objects *)
  notes : list nat;
  active_notes : gmap string nat;
  button_press_count : gmap string Z;
  total_presses : Z;
  nintendo_hat_only : bool;
  last_hat_event_time : float;
  last_global_button_states : gmap Z bool;
  last_global_hat_state : Z * Z;
  global_input_lock : bool;             (* is the lock held? *)
  console : list Emission;
}.

(** ** Assignments to one attribute *)

Definition set_clock (v : float) (st : StreamPad) : StreamPad :=
  mkStreamPad v (st.(display_active)) (st.(active_controller))
    (st.(controller_type)) (st.(button_states)) (st.(last_button_states))
    (st.(last_axis_states)) (st.(last_hat_state)) (st.(lane_width))
    (st.(lane_height)) (st.(note_objects)) (st.(notes)) (st.(active_notes))
    (st.(button_press_count)) (st.(total_presses)) (st.(nintendo_hat_only))
    (st.(last_hat_event_time)) (st.(last_global_button_states))
    (st.(last_global_hat_state)) (st.(global_input_lock)) (st.(console)).

Definition set_display_active (v : bool) (st : StreamPad) : StreamPad :=
  mkStreamPad (st.(clock)) v (st.(active_controller)) (st.(controller_type))
    (st.(button_states)) (st.(last_button_states)) (st.(last_axis_states))
    (st.(last_hat_state)) (st.(lane_width)) (st.(lane_height))
    (st.(note_objects)) (st.(notes)) (st.(active_notes))
    (st.(button_press_count)) (st.(total_presses)) (st.(nintendo_hat_only))
    (st.(last_hat_event_time)) (st.(last_global_button_states))
    (st.(last_global_hat_state)) (st.(global_input_lock)) (st.(console)).

Definition set_active_controller (v : option Joystick) (st : StreamPad) : StreamPad :=
  mkStreamPad (st.(clock)) (st.(display_active)) v (st.(controller_type))
    (st.(button_states)) (st.(last_button_states)) (st.(last_axis_states))
    (st.(last_hat_state)) (st.(lane_width)) (st.(lane_height))
    (st.(note_objects)) (st.(notes)) (st.(active_notes))
    (st.(button_press_count)) (st.(total_presses)) (st.(nintendo_hat_only))
    (st.(last_hat_event_time)) (st.(last_global_button_states))
    (st.(last_global_hat_state)) (st.(global_input_lock)) (st.(console)).

Definition set_button_states (v : gmap string bool) (st : StreamPad) : StreamPad :=
  mkStreamPad (st.(clock)) (st.(display_active)) (st.(active_controller))
    (st.(controller_type)) v (st.(last_button_states)) (st.(last_axis_states))
    (st.(last_hat_state)) (st.(lane_width)) (st.(lane_height))
    (st.(note_objects)) (st.(notes)) (st.(active_notes))
    (st.(button_press_count)) (st.(total_presses)) (st.(nintendo_hat_only))
    (st.(last_hat_event_time)) (st.(last_global_button_states))
    (st.(last_global_hat_state)) (st.(global_input_lock)) (st.(console)).

Definition set_last_button_states (v : gmap string bool) (st : StreamPad) : StreamPad :=
  mkStreamPad (st.(clock)) (st.(display_active)) (st.(active_controller))
    (st.(controller_type)) (st.(button_states)) v (st.(last_axis_states))
    (st.(last_hat_state)) (st.(lane_width)) (st.(lane_height))
    (st.(note_objects)) (st.(notes)) (st.(active_notes))
    (st.(button_press_count)) (st.(total_presses)) (st.(nintendo_hat_only))
    (st.(last_hat_event_time)) (st.(last_global_button_states))
    (st.(last_global_hat_state)) (st.(global_input_lock)) (st.(console)).

Definition set_last_axis_states (v : gmap string bool) (st : StreamPad) : StreamPad :=
  mkStreamPad (st.(clock)) (st.(display_active)) (st.(active_controller))
    (st.(controller_type)) (st.(button_states)) (st.(last_button_states)) v
    (st.(last_hat_state)) (st.(lane_width)) (st.(lane_height))
    (st.(note_objects)) (st.(notes)) (st.(active_notes))
    (st.(button_press_count)) (st.(total_presses)) (st.(nintendo_hat_only))
    (st.(last_hat_event_time)) (st.(last_global_button_states))
    (st.(last_global_hat_state)) (st.(global_input_lock)) (st.(console)).

Definition set_last_hat_state (v : Z * Z) (st : StreamPad) : StreamPad :=
  mkStreamPad (st.(clock)) (st.(display_active)) (st.(active_controller))
    (st.(controller_type)) (st.(button_states)) (st.(last_button_states))
    (st.(last_axis_states)) v (st.(lane_width)) (st.(lane_height))
    (st.(note_objects)) (st.(notes)) (st.(active_notes))
    (st.(button_press_count)) (st.(total_presses)) (st.(nintendo_hat_only))
    (st.(last_hat_event_time)) (st.(last_global_button_states))
    (st.(last_global_hat_state)) (st.(global_input_lock)) (st.(console)).

Definition set_note_objects (v : list DDRNote) (st : StreamPad) : StreamPad :=
  mkStreamPad (st.(clock)) (st.(display_active)) (st.(active_controller))
    (st.(controller_type)) (st.(button_states)) (st.(last_button_states))
    (st.(last_axis_states)) (st.(last_hat_state)) (st.(lane_width))
    (st.(lane_height)) v (st.(notes)) (st.(active_notes))
    (st.(button_press_count)) (st.(total_presses)) (st.(nintendo_hat_only))
    (st.(last_hat_event_time)) (st.(last_global_button_states))
    (st.(last_global_hat_state)) (st.(global_input_lock)) (st.(console)).

Definition set_notes (v : list nat) (st : StreamPad) : StreamPad :=
  mkStreamPad (st.(clock)) (st.(display_active)) (st.(active_controller))
    (st.(controller_type)) (st.(button_states)) (st.(last_button_states))
    (st.(last_axis_states)) (st.(last_hat_state)) (st.(lane_width))
    (st.(lane_height)) (st.(note_objects)) v (st.(active_notes))
    (st.(button_press_count)) (st.(total_presses)) (st.(nintendo_hat_only))
    (st.(last_hat_event_time)) (st.(last_global_button_states))
    (st.(last_global_hat_state)) (st.(global_input_lock)) (st.(console)).

Definition set_active_notes (v : gmap string nat) (st : StreamPad) : StreamPad :=
  mkStreamPad (st.(clock)) (st.(display_active)) (st.(active_controller))
    (st.(controller_type)) (st.(button_states)) (st.(last_button_states))
    (st.(last_axis_states)) (st.(last_hat_state)) (st.(lane_width))
    (st.(lane_height)) (st.(note_objects)) (st.(notes)) v
    (st.(button_press_count)) (st.(total_presses)) (st.(nintendo_hat_only))
    (st.(last_hat_event_time)) (st.(last_global_button_states))
    (st.(last_global_hat_state)) (st.(global_input_lock)) (st.(console)).

Definition set_button_press_count (v : gmap string Z) (st : StreamPad) : StreamPad :=
  mkStreamPad (st.(clock)) (st.(display_active)) (st.(active_controller))
    (st.(controller_type)) (st.(button_states)) (st.(last_button_states))
    (st.(last_axis_states)) (st.(last_hat_state)) (st.(lane_width))
    (st.(lane_height)) (st.(note_objects)) (st.(notes)) (st.(active_notes)) v
    (st.(total_presses)) (st.(nintendo_hat_only)) (st.(last_hat_event_time))
    (st.(last_global_button_states)) (st.(last_global_hat_state))
    (st.(global_input_lock)) (st.(console)).

Definition set_total_presses (v : Z) (st : StreamPad) : StreamPad :=
  mkStreamPad (st.(clock)) (st.(display_active)) (st.(active_controller))
    (st.(controller_type)) (st.(button_states)) (st.(last_button_states))
    (st.(last_axis_states)) (st.(last_hat_state)) (st.(lane_width))
    (st.(lane_height)) (st.(note_objects)) (st.(notes)) (st.(active_notes))
    (st.(button_press_count)) v (st.(nintendo_hat_only))
    (st.(last_hat_event_time)) (st.(last_global_button_states))
    (st.(last_global_hat_state)) (st.(global_input_lock)) (st.(console)).

Definition set_last_hat_event_time (v : float) (st : StreamPad) : StreamPad :=
  mkStreamPad (st.(clock)) (st.(display_active)) (st.(active_controller))
    (st.(controller_type)) (st.(button_states)) (st.(last_button_states))
    (st.(last_axis_states)) (st.(last_hat_state)) (st.(lane_width))
    (st.(lane_height)) (st.(note_objects)) (st.(notes)) (st.(active_notes))
    (st.(button_press_count)) (st.(total_presses)) (st.(nintendo_hat_only)) v
    (st.(last_global_button_states)) (st.(last_global_hat_state))
    (st.(global_input_lock)) (st.(console)).

Definition set_last_global_button_states (v : gmap Z bool) (st : StreamPad) : StreamPad :=
  mkStreamPad (st.(clock)) (st.(display_active)) (st.(active_controller))
    (st.(controller_type)) (st.(button_states)) (st.(last_button_states))
    (st.(last_axis_states)) (st.(last_hat_state)) (st.(lane_width))
    (st.(lane_height)) (st.(note_objects)) (st.(notes)) (st.(active_notes))
    (st.(button_press_count)) (st.(total_presses)) (st.(nintendo_hat_only))
    (st.(last_hat_event_time)) v (st.(last_global_hat_state))
    (st.(global_input_lock)) (st.(console)).

Definition set_last_global_hat_state (v : Z * Z) (st : StreamPad) : StreamPad :=
  mkStreamPad (st.(clock)) (st.(display_active)) (st.(active_controller))
    (st.(controller_type)) (st.(button_states)) (st.(last_button_states))
    (st.(last_axis_states)) (st.(last_hat_state)) (st.(lane_width))
    (st.(lane_height)) (st.(note_objects)) (st.(notes)) (st.(active_notes))
    (st.(button_press_count)) (st.(total_presses)) (st.(nintendo_hat_only))
    (st.(last_hat_event_time)) (st.(last_global_button_states)) v
    (st.(global_input_lock)) (st.(console)).

Definition set_global_input_lock (v : bool) (st : StreamPad) : StreamPad :=
  mkStreamPad (st.(clock)) (st.(display_active)) (st.(active_controller))
    (st.(controller_type)) (st.(button_states)) (st.(last_button_states))
    (st.(last_axis_states)) (st.(last_hat_state)) (st.(lane_width))
    (st.(lane_height)) (st.(note_objects)) (st.(notes)) (st.(active_notes))
    (st.(button_press_count)) (st.(total_presses)) (st.(nintendo_hat_only))
    (st.(last_hat_event_time)) (st.(last_global_button_states))
    (st.(last_global_hat_state)) v (st.(console)).

Definition set_console (v : list Emission) (st : StreamPad) : StreamPad :=
  mkStreamPad (st.(clock)) (st.(display_active)) (st.(active_controller))
    (st.(controller_type)) (st.(button_states)) (st.(last_button_states))
    (st.(last_axis_states)) (st.(last_hat_state)) (st.(lane_width))
    (st.(lane_height)) (st.(note_objects)) (st.(notes)) (st.(active_notes))
    (st.(button_press_count)) (st.(total_presses)) (st.(nintendo_hat_only))
    (st.(last_hat_event_time)) (st.(last_global_button_states))
    (st.(last_global_hat_state)) (st.(global_input_lock)) v.

(** ** Results of a call *)

(** A call returns ([Done]), leaves with an exception ([Raised], with the
    state as the call left it) or never returns because the thread waits
    for a lock it holds itself ([Blocked]). *)
Inductive outcome :=
  | Done (st : StreamPad)
  | Raised (e : exn) (st : StreamPad)
  | Blocked.

Definition bind (o : outcome) (k : StreamPad -> outcome) : outcome :=
  match o with
  | Done st => k st
  | Raised e st => Raised e st
  | Blocked => Blocked
  end.

Notation "st <- o ;; k" := (bind o (fun st => k))
  (at level 100, o at next level, right associativity).

(** [with self.global_input_lock: body].  The lock is released when the
    block is left, also by an exception. *)
Definition with_lock (body : StreamPad -> outcome) (st : StreamPad) : outcome :=
  if global_input_lock st then Blocked
  else
    match body (set_global_input_lock true st) with
    | Done st' => Done (set_global_input_lock false st')
    | Raised e st' => Raised e (set_global_input_lock false st')
    | Blocked => Blocked
    end.

(** [for v in l: body(v)] *)
Fixpoint for_each {A : Type} (l : list A) (body : A -> StreamPad -> outcome)
    (st : StreamPad) : outcome :=
  match l with
  | [] => Done st
  | v :: l' => st' <- body v st ;; for_each l' body st'
  end.

Definition print (e : Emission) (st : StreamPad) : StreamPad :=
  set_console (console st ++ [e]) st.

(** ** The button table: [get_button_mapping] *)

Definition generic_mapping : gmap Z string :=
  list_to_map
    [(0, "1"); (1, "0"); (2, "2"); (3, "3"); (4, "4"); (5, "5"); (6, "8");
     (7, "9"); (8, "8"); (9, "9"); (10, "4"); (11, "5"); (12, "12");
     (13, "13"); (14, "14"); (15, "15")]%Z.

Definition switch_pro_mapping : gmap Z string :=
  list_to_map
    [(0, "1"); (1, "0"); (2, "2"); (3, "3"); (4, "8"); (6, "9"); (7, "10");
     (8, "11"); (9, "4"); (10, "5"); (11, "12"); (12, "13"); (13, "14");
     (14, "15")]%Z.

Definition snes_switch_mapping : gmap Z string :=
  list_to_map
    [(11, "12"); (12, "13"); (13, "14"); (14, "15"); (9, "4"); (10, "5");
     (0, "1"); (1, "0"); (2, "2"); (3, "3"); (4, "8"); (6, "9")]%Z.

(** [d.update(u)]: the items of [u] win. *)
Definition dict_update {V : Type} (d u : gmap Z V) : gmap Z V := u ∪ d.

Definition button_table (ct : ControllerType) : gmap Z string :=
  let mapping := generic_mapping in
  match ct with
  | SWITCH_PRO => switch_pro_mapping
  | SNES_SWITCH => dict_update mapping snes_switch_mapping
  | _ => mapping
  end.

Definition get_button_mapping (ct : ControllerType) (pygame_button : Z)
    : option string :=
  button_table ct !! pygame_button.

(** A call of the method with the arguments [args]: Python checks the
    number of arguments before it runs the body. *)
Definition call_get_button_mapping (ct : ControllerType) (args : list Z)
    : exn + option string :=
  match args with
  | [pygame_button] => inr (get_button_mapping ct pygame_button)
  | _ => inl TypeError
  end.

(** The table of the earlier variant, [streampad_pygame.py]. *)
Module Variant.

(** [BUTTON_ORDER] of [streampad_pygame.py]: twelve lanes, without
    ['6'] and ['7']. *)
Definition BUTTON_ORDER : list string :=
  ["14"; "12"; "15"; "13"; "4"; "5"; "8"; "9"; "2"; "3"; "0"; "1"].

Definition generic_mapping : gmap Z string :=
  list_to_map
    [(0, "1"); (1, "0"); (2, "2"); (3, "3"); (4, "4"); (5, "5"); (6, "8");
     (7, "9"); (8, "8"); (9, "9"); (10, "4"); (11, "5"); (12, "12");
     (13, "13"); (14, "14"); (15, "15")]%Z.

Definition switch_pro_mapping : gmap Z string :=
  list_to_map
    [(0, "0"); (1, "1"); (2, "3"); (3, "2"); (4, "4"); (5, "5"); (6, "4");
     (7, "5"); (8, "8"); (9, "9"); (10, "4"); (11, "5"); (12, "12");
     (13, "13"); (14, "14"); (15, "15"); (16, "9"); (17, "8")]%Z.

Definition snes_switch_mapping : gmap Z string :=
  list_to_map [(0, "0"); (1, "1"); (2, "2"); (3, "3")]%Z.

Definition button_table (ct : ControllerType) : gmap Z string :=
  let mapping := generic_mapping in
  match ct with
  | SWITCH_PRO => switch_pro_mapping
  | SNES_SWITCH => dict_update mapping snes_switch_mapping
  | _ => mapping
  end.

Definition get_button_mapping (ct : ControllerType) (pygame_button : Z)
    : option string :=
  button_table ct !! pygame_button.

End Variant.

(** ** The note lifecycle *)

(** [BUTTON_ORDER.index(button_id)]; [None] when [button_id not in
    BUTTON_ORDER]. *)
Fixpoint list_index (s : string) (l : list string) : option nat :=
  match l with
  | [] => None
  | s' :: l' => if String.eqb s s' then Some 0%nat else S <$> list_index s l'
  end.

(** The [DDRNote(...)] that [create_ddr_note] builds for the lane
    [lane_index]. *)
Definition new_note (button_id : string) (lane_index : nat) (st : StreamPad)
    : DDRNote :=
  let nx := (Z.of_nat lane_index * lane_width st + 5)%Z in
  let nwidth := (lane_width st - 10)%Z in
  let nheight := min_note_height in
  let ny := (lane_height st - self_initial_bottom - nheight)%Z in
  let ncolor := default (255, 255, 255)%Z (button_colors !! button_id) in
  {| x := Z2f nx; y := Z2f ny; width := Z2f nwidth;
     height := Z2f nheight; color := ncolor; button_id := button_id;
     start_time := clock st; end_time := None; is_growing := true;
     initial_bottom := Z2f (lane_height st - self_initial_bottom) |}.

Definition create_ddr_note (button_id : string) (st : StreamPad) : StreamPad :=
  match list_index button_id BUTTON_ORDER with
  | None => st
  | Some lane_index =>
      let note := new_note button_id lane_index st in
      let r := length (note_objects st) in
      let st := set_note_objects (note_objects st ++ [note]) st in
      let st := set_notes (notes st ++ [r]) st in
      set_active_notes (<[button_id := r]> (active_notes st)) st
  end.

(** [note.is_growing = False; note.end_time = t] *)
Definition end_note (t : float) (n : DDRNote) : DDRNote :=
  {| x := x n; y := y n; width := width n; height := height n;
     color := color n; button_id := button_id n; start_time := start_time n;
     end_time := Some t; is_growing := false;
     initial_bottom := initial_bottom n |}.

Definition end_ddr_note (button_id : string) (st : StreamPad) : StreamPad :=
  match active_notes st !! button_id with
  | None => st
  | Some r =>
      let st :=
        set_note_objects (alter (end_note (clock st)) r (note_objects st)) st in
      set_active_notes (delete button_id (active_notes st)) st
  end.

(** ** The emission functions *)

(** [button_id in self.button_states and self.button_states[button_id]] *)
Definition already_pressed (st : StreamPad) (button_id : string) : bool :=
  default false (button_states st !! button_id).

(** The statements of [on_button_press] after its early return. *)
Definition press_update (button_id : string) (st : StreamPad) : StreamPad :=
  let st := print (Pressed button_id) st in
  let st := set_button_states (<[button_id := true]> (button_states st)) st in
  let st :=
    set_button_press_count
      (<[button_id :=
           (default 0 (button_press_count st !! button_id) + 1)%Z]>
         (button_press_count st)) st in
  let st := set_total_presses (total_presses st + 1)%Z st in
  create_ddr_note button_id st.

Definition on_button_press (button_id : string) : StreamPad -> outcome :=
  with_lock (fun st =>
    if already_pressed st button_id then Done st
    else Done (press_update button_id st)).

(** The statements of [on_button_release] after its early return. *)
Definition release_update (button_id : string) (st : StreamPad) : StreamPad :=
  let st := print (Released button_id) st in
  let st := set_button_states (<[button_id := false]> (button_states st)) st in
  end_ddr_note button_id st.

Definition on_button_release (button_id : string) : StreamPad -> outcome :=
  with_lock (fun st =>
    if negb (already_pressed st button_id) then Done st
    else Done (release_update button_id st)).

(** ** [update_ddr_notes] *)

Definition set_geometry (ny nheight : float) (n : DDRNote) : DDRNote :=
  {| x := x n; y := ny; width := width n; height := nheight;
     color := color n; button_id := button_id n; start_time := start_time n;
     end_time := end_time n; is_growing := is_growing n;
     initial_bottom := initial_bottom n |}.

(** The body of the first loop for one note: the note as the loop leaves
    it, and whether it is appended to [notes_to_remove]. *)
Definition update_note (current_time : float) (n : DDRNote) : DDRNote * bool :=
  if is_growing n then
    let elapsed_ms := ((current_time - start_time n) * 1000)%float in
    let grown_height := (elapsed_ms * (growth_rate / 1000))%float in
    let new_height := (Z2f min_note_height + grown_height)%float in
    (set_geometry (initial_bottom n - new_height)%float new_height n, false)
  else
    let n' :=
      match end_time n with
      | Some e =>
          if float_truthy e then
            let elapsed_since_release_ms := ((current_time - e) * 1000)%float in
            let upward_movement :=
              (elapsed_since_release_ms * (note_speed / 1000))%float in
            set_geometry (initial_bottom n - height n - upward_movement)%float
              (height n) n
          else n
      | None => n
      end in
    (n', (y n' + height n' <? Z2f (-100))%float).

Fixpoint update_loop (current_time : float) (l : list nat)
    (objs : list DDRNote) (notes_to_remove : list nat)
    : list DDRNote * list nat :=
  match l with
  | [] => (objs, notes_to_remove)
  | r :: l' =>
      match objs !! r with
      | Some n =>
          let '(n', off) := update_note current_time n in
          update_loop current_time l' (<[r := n']> objs)
            (if off then notes_to_remove ++ [r] else notes_to_remove)
      | None => update_loop current_time l' objs notes_to_remove
      end
  end.

Definition option_float_eqb (a b : option float) : bool :=
  match a, b with
  | Some u, Some v => (u =? v)%float
  | None, None => true
  | _, _ => false
  end.

(** [==] of the dataclass: the tuples of the fields are compared. *)
Definition note_eqb (a b : DDRNote) : bool :=
  (x a =? x b)%float && (y a =? y b)%float && (width a =? width b)%float
  && (height a =? height b)%float
  && bool_decide (color a = color b)
  && String.eqb (button_id a) (button_id b)
  && (start_time a =? start_time b)%float
  && option_float_eqb (end_time a) (end_time b)
  && Bool.eqb (is_growing a) (is_growing b)
  && (initial_bottom a =? initial_bottom b)%float.

(** What [in] and [list.remove] test: the same object, or an equal one. *)
Definition same_note (objs : list DDRNote) (r r' : nat) : bool :=
  (r =? r')%nat ||
  match objs !! r, objs !! r' with
  | Some a, Some b => note_eqb a b
  | _, _ => false
  end.

(** [if note in l: l.remove(note)] *)
Fixpoint remove_note (objs : list DDRNote) (r : nat) (l : list nat) : list nat :=
  match l with
  | [] => []
  | r' :: l' => if same_note objs r' r then l' else r' :: remove_note objs r l'
  end.

Definition update_ddr_notes (st : StreamPad) : StreamPad :=
  let current_time := clock st in
  let '(objs, notes_to_remove) :=
    update_loop current_time (notes st) (note_objects st) [] in
  let st := set_note_objects objs st in
  set_notes (foldl (fun l r => remove_note objs r l) (notes st) notes_to_remove) st.

(** ** [emergency_cleanup] and [validate_button_states] *)

Definition emergency_cleanup : StreamPad -> outcome :=
  with_lock (fun st =>
    let st := set_button_states ∅ st in
    let st := set_last_button_states ∅ st in
    let st := set_last_axis_states ∅ st in
    let st := set_last_global_button_states ∅ st in
    let st := set_last_hat_state (0, 0)%Z st in
    let st := set_last_global_hat_state (0, 0)%Z st in
    let st := set_last_hat_event_time 0%float st in
    let st := set_active_notes ∅ st in
    let st := set_notes [] st in
    for_each (map_to_list (active_notes st)).*1 on_button_release st).

(** [gamepad.get_button(i)]; pygame raises its error for an index the
    device does not have. *)
Definition get_button (gamepad : Joystick) (i : Z) : option bool :=
  if (i <? 0)%Z then None else buttons gamepad !! Z.to_nat i.

Definition get_numbuttons (gamepad : Joystick) : Z :=
  Z.of_nat (length (buttons gamepad)).

(** The search of the raw index mapped to [button_id] in
    [validate_button_states]: [self.get_button_mapping()] is called
    without its argument, and [.items()] is then asked of its result. *)
Definition find_pygame_button (ct : ControllerType) (button_id : string)
    : exn + option Z :=
  match call_get_button_mapping ct [] with
  | inl e => inl e
  | inr _ => inl AttributeError
  end.

(** The first loop of [validate_button_states] over the items of
    [self.button_states]: [stuck_buttons] when the loop is left, and the
    exception that ended it, if any.  The items come in the order of
    [map_to_list], not in the order of insertion of the [dict]: the
    result is the same for every order ([validate_scan_stuck]). *)
Fixpoint validate_scan (ct : ControllerType) (gamepad : Joystick)
    (items : list (string * bool)) (stuck_buttons : list string)
    : list string * option exn :=
  match items with
  | [] => (stuck_buttons, None)
  | (button_id, pressed) :: rest =>
      if pressed then
        match find_pygame_button ct button_id with
        | inl e => (stuck_buttons, Some e)
        | inr (Some pygame_button) =>
            if (pygame_button <? get_numbuttons gamepad)%Z then
              match get_button gamepad pygame_button with
              | Some actual_pressed =>
                  validate_scan ct gamepad rest
                    (if actual_pressed then stuck_buttons
                     else stuck_buttons ++ [button_id])
              | None => (stuck_buttons, Some PygameError)
              end
            else validate_scan ct gamepad rest stuck_buttons
        | inr None => validate_scan ct gamepad rest stuck_buttons
        end
      else validate_scan ct gamepad rest stuck_buttons
  end.

(** The block under the lock: the value of [stuck_buttons] when the block
    is left, and how it is left. *)
Definition validate_check (gamepad : Joystick) (st : StreamPad)
    : list string * outcome :=
  let '(stuck_buttons, err) :=
    validate_scan (controller_type st) gamepad
      (map_to_list (button_states st)) [] in
  match err with
  | Some e => (stuck_buttons, Raised e st)
  | None => (stuck_buttons, for_each stuck_buttons on_button_release st)
  end.

(** The [except Exception] clause of [validate_button_states]. *)
Definition validate_except (stuck_buttons : list string) (st : StreamPad)
    : outcome :=
  match stuck_buttons with
  | [] => Done st
  | _ :: _ => emergency_cleanup st
  end.

Definition validate_button_states (st : StreamPad) : outcome :=
  match active_controller st with
  | None => Done st
  | Some gamepad =>
      if negb (get_init gamepad) then Done st
      else if global_input_lock st then Blocked
      else
        let '(stuck_buttons, o) :=
          validate_check gamepad (set_global_input_lock true st) in
        match o with
        | Done st' => Done (set_global_input_lock false st')
        | Raised e st' =>
            validate_except stuck_buttons (set_global_input_lock false st')
        | Blocked => Blocked
        end
  end.

(** ** The periodic check of [run] *)

(** [validation_timer += dt] and the test that follows, in one iteration
    of the loop of [run]: the new value of [validation_timer] and the
    outcome. *)
Definition periodic_validation (validation_timer dt : float) (st : StreamPad)
    : float * outcome :=
  let validation_timer := (validation_timer + dt)%float in
  if (validation_interval <=? validation_timer)%float
  then (0%float, validate_button_states st)
  else (validation_timer, Done st).

(** ** The foreground path: the joystick branches of [handle_events] *)

Inductive Event :=
  | JOYBUTTONDOWN (joy button : Z)
  | JOYBUTTONUP (joy button : Z)
  | JOYHATMOTION (joy : Z) (value : Z * Z).

(** [try: ... except <classes>: pass] *)
Definition except_pass (caught : exn -> bool) (o : outcome) : outcome :=
  match o with
  | Raised e st => if caught e then Done st else o
  | _ => o
  end.

Definition pygame_or_attribute_error (e : exn) : bool :=
  match e with
  | PygameError | AttributeError => true
  | TypeError => false
  end.

Definition any_exception (e : exn) : bool := true.

(** [self.active_controller and
     event.joy == self.active_controller.get_instance_id()] *)
Definition from_active_controller (st : StreamPad) (joy : Z) : bool :=
  match active_controller st with
  | Some c => bool_decide (joy = get_instance_id c)
  | None => false
  end.

(** [button_id = self.get_button_mapping(i)] and [if button_id: emit] *)
Definition emit_mapped (emit : string -> StreamPad -> outcome) (i : Z)
    (st : StreamPad) : outcome :=
  match get_button_mapping (controller_type st) i with
  | Some button_id =>
      if str_truthy button_id then emit button_id st else Done st
  | None => Done st
  end.

(** The dictionaries [desired] and [previous] of the hat code. *)
Definition hat_dict (v : Z * Z) : gmap string bool :=
  let '(hx, hy) := v in
  list_to_map
    [("14", (hx <? 0)%Z); ("15", (0 <? hx)%Z);
     ("12", (0 <? hy)%Z); ("13", (hy <? 0)%Z)].

(** The body of the loop [for bid in ['14', '15', '12', '13']]. *)
Definition hat_transition (press release : string -> StreamPad -> outcome)
    (desired previous : gmap string bool) (bid : string) (st : StreamPad)
    : outcome :=
  st <- (if (desired !!! bid) && negb (previous !!! bid)
         then press bid st else Done st) ;;
  if negb (desired !!! bid) && (previous !!! bid)
  then release bid st else Done st.

Definition handle_event (event : Event) (st : StreamPad) : outcome :=
  match event with
  | JOYBUTTONDOWN joy button =>
      except_pass pygame_or_attribute_error
        (if from_active_controller st joy
         then emit_mapped on_button_press button st
         else Done st)
  | JOYBUTTONUP joy button =>
      except_pass pygame_or_attribute_error
        (if from_active_controller st joy
         then emit_mapped on_button_release button st
         else Done st)
  | JOYHATMOTION joy value =>
      let st := set_last_hat_event_time (clock st) st in
      except_pass any_exception
        (if from_active_controller st joy then
           let desired := hat_dict value in
           let previous := hat_dict (last_hat_state st) in
           st <- for_each ["14"; "15"; "12"; "13"]
                   (hat_transition on_button_press on_button_release
                      desired previous) st ;;
           Done (set_last_hat_state value st)
         else Done st)
  end.

(** ** The background path: the polling thread *)

Definition _hat_debounce_active (st : StreamPad) : bool :=
  ((clock st - last_hat_event_time st) * 1000
   <=? Z2f hat_button_debounce_ms)%float.

(** [with self.global_input_lock: self.on_button_press(button_id)], and
    the same for a release: the caller takes the lock around the call. *)
Definition locked (emit : string -> StreamPad -> outcome) (button_id : string)
    : StreamPad -> outcome :=
  with_lock (emit button_id).

(** The body of [for i in range(gamepad.get_numbuttons())], for the index
    [i] and what [gamepad.get_button(i)] reads. *)
Definition poll_button (suppress_buttons : bool) (reading : Z * bool)
    (st : StreamPad) : outcome :=
  let '(i, is_pressed) := reading in
  let was_pressed := default false (last_global_button_states st !! i) in
  let remember st :=
    set_last_global_button_states
      (<[i := is_pressed]> (last_global_button_states st)) st in
  if suppress_buttons then Done (remember st)
  else if nintendo_hat_only st && bool_decide (i ∈ [12; 13; 14; 15]%Z)
  then Done (remember st)
  else
    st <- (if is_pressed && negb was_pressed
           then emit_mapped (locked on_button_press) i st else Done st) ;;
    st <- (if negb is_pressed && was_pressed
           then emit_mapped (locked on_button_release) i st else Done st) ;;
    Done (remember st).

(** The button part of [check_global_controller_input].  The loop runs
    over the indices below [get_numbuttons()], for which [get_button]
    does not raise, so its [except pygame.error: break] is not taken. *)
Definition check_global_buttons (st : StreamPad) : outcome :=
  except_pass any_exception
    match active_controller st with
    | None => Done st
    | Some gamepad =>
        if negb (get_init gamepad) then Done st
        else if display_active st then Done st
        else
          let suppress_buttons :=
            nintendo_hat_only st && _hat_debounce_active st in
          for_each (imap (fun i b => (Z.of_nat i, b)) (buttons gamepad))
            (poll_button suppress_buttons) st
    end.

Definition check_global_hat (st : StreamPad) : outcome :=
  except_pass any_exception
    match active_controller st with
    | None => Done st
    | Some c =>
        if negb (get_init c) then Done st
        else
          match hats c with
          | [] => Done st
          | (hx, hy) :: _ =>
              let desired := hat_dict (hx, hy) in
              let previous := hat_dict (last_hat_state st) in
              st <- for_each ["14"; "15"; "12"; "13"]
                      (hat_transition (locked on_button_press)
                         (locked on_button_release) desired previous) st ;;
              let st := set_last_hat_state (hx, hy) st in
              let st := set_last_global_hat_state (hx, hy) st in
              Done (set_last_hat_event_time (clock st) st)
          end
    end.

(** ** The state after [__init__] *)

(** [t0] is the clock, and the controller, its family and the flag
    [nintendo_hat_only] are what [initial_controller_scan] found. *)
Definition initial_state (t0 : float) (c : option Joystick)
    (ct : ControllerType) (hat_only : bool) : StreamPad :=
  {| clock := t0;
     display_active := true;
     active_controller := c;
     controller_type := ct;
     button_states := ∅;
     last_button_states := ∅;
     last_axis_states := ∅;
     last_hat_state := (0, 0)%Z;
     lane_width := (SCREEN_WIDTH `div` Z.of_nat (length BUTTON_ORDER))%Z;
     lane_height := (SCREEN_HEIGHT - 100)%Z;
     note_objects := [];
     notes := [];
     active_notes := ∅;
     button_press_count := list_to_map ((fun btn => (btn, 0%Z)) <$> BUTTON_ORDER);
     total_presses := 0;
     nintendo_hat_only := hat_only;
     last_hat_event_time := 0%float;
     last_global_button_states := ∅;
     last_global_hat_state := (0, 0)%Z;
     global_input_lock := false;
     console := [] |}.

(** ** Runs of the program *)

(** One step of a run: a call of one of the operations that returns, or a
    change of what the program reads from outside. *)
Inductive step : StreamPad -> StreamPad -> Prop :=
  | step_press button_id st st' :
      on_button_press button_id st = Done st' -> step st st'
  | step_release button_id st st' :
      on_button_release button_id st = Done st' -> step st st'
  | step_update st :
      step st (update_ddr_notes st)
  | step_cleanup st st' :
      emergency_cleanup st = Done st' -> step st st'
  | step_validate st st' :
      validate_button_states st = Done st' -> step st st'
  | step_event event st st' :
      handle_event event st = Done st' -> step st st'
  | step_poll_buttons st st' :
      check_global_buttons st = Done st' -> step st st'
  | step_poll_hat st st' :
      check_global_hat st = Done st' -> step st st'
  | step_clock t st :
      step st (set_clock t st)
  | step_focus b st :
      step st (set_display_active b st)
  | step_device c st :
      step st (set_active_controller c st).

Inductive reachable : StreamPad -> Prop :=
  | reachable_init t0 c ct hat_only :
      reachable (initial_state t0 c ct hat_only)
  | reachable_step st st' :
      reachable st -> step st st' -> reachable st'.

(** The note at the reference [r] is growing and owned by [button_id]. *)
Definition growing_for (st : StreamPad) (button_id0 : string) (r : nat) : bool :=
  match note_objects st !! r with
  | Some n => is_growing n && String.eqb (button_id n) button_id0
  | None => false
  end.

(** The number of growing notes of [button_id] in [self.notes]. *)
Definition growing_count (st : StreamPad) (button_id0 : string) : nat :=
  length (List.filter (growing_for st button_id0) (notes st)).

(** What holds of the notes in every state of a run. *)
Record note_inv (st : StreamPad) : Prop := mk_note_inv {
  inv_nodup : NoDup (notes st);
  inv_alloc : forall r, r ∈ notes st -> (r < length (note_objects st))%nat;
  inv_growing : forall r n,
    r ∈ notes st -> note_objects st !! r = Some n -> is_growing n = true ->
    already_pressed st (button_id n) = true
    /\ active_notes st !! button_id n = Some r;
}.

Definition outcome_inv (o : outcome) : Prop :=
  match o with
  | Done st | Raised _ st => note_inv st
  | Blocked => True
  end.

(** ** Override semantics, as the specification words it *)

(** A family entry replaces the generic entry for the index it covers,
    and the generic entry applies to an index the family table does not
    cover. *)
Definition override_lookup (generic : gmap Z string)
    (family : option (gmap Z string)) (i : Z) : option string :=
  match family with
  | Some table =>
      match table !! i with
      | Some v => Some v
      | None => generic !! i
      end
  | None => generic !! i
  end.

Definition family_table (ct : ControllerType) : option (gmap Z string) :=
  match ct with
  | SWITCH_PRO => Some switch_pro_mapping
  | SNES_SWITCH => Some snes_switch_mapping
  | _ => None
  end.

Definition variant_family_table (ct : ControllerType)
    : option (gmap Z string) :=
  match ct with
  | SWITCH_PRO => Some Variant.switch_pro_mapping
  | SNES_SWITCH => Some Variant.snes_switch_mapping
  | _ => None
  end.

(** ** Scenarios *)

(** The state after the operations [ops], in this order, if they all
    return. *)
Definition after (ops : list (StreamPad -> outcome)) (st : StreamPad)
    : outcome :=
  for_each ops (fun op => op) st.

Definition at_time (t : float) (st : StreamPad) : outcome :=
  Done (set_clock t st).

Definition update (st : StreamPad) : outcome := Done (update_ddr_notes st).

(** The state in which the note of a press of ['1'] at [t = 0] was
    updated after 500 ms. *)
Definition held_500ms : StreamPad :=
  match after [on_button_press "1"; at_time 0.5; update]
          (initial_state 0 None GENERIC false) with
  | Done st => st
  | _ => initial_state 0 None GENERIC false
  end.

(** The same note, released at 500 ms with the height 48, at 1500 ms. *)
Definition released_1000ms : StreamPad :=
  match after [on_button_release "1"; at_time 1.5] held_500ms with
  | Done st => st
  | _ => held_500ms
  end.

(** A press of ['1'], its release, and a second press of ['1']. *)
Definition released_once : StreamPad :=
  match after [on_button_press "1"; on_button_release "1"]
          (initial_state 0 None GENERIC false) with
  | Done st => st
  | _ => initial_state 0 None GENERIC false
  end.

Definition pressed_again : StreamPad :=
  match on_button_press "1" released_once with
  | Done st => st
  | _ => released_once
  end.

(** A pad with sixteen buttons, none of them pressed, and a centred hat. *)
Definition idle_pad : Joystick :=
  {| get_name := "USB Gamepad"; get_instance_id := 0; get_init := true;
     buttons := replicate 16 false; hats := [(0, 0)%Z] |}.

(** ['1'] is marked pressed, and no button of the device is pressed. *)
Definition stuck_state : StreamPad :=
  set_button_states {["1" := true]}
    (initial_state 0 (Some idle_pad) GENERIC false).

(** A pad whose d-pad is a hat, so that [nintendo_hat_only] is set. *)
Definition switch_pad : Joystick :=
  {| get_name := "SNES Controller for Switch"; get_instance_id := 0;
     get_init := true; buttons := replicate 16 false; hats := [(0, 0)%Z] |}.

(** The state [ms] milliseconds after a hat event at [t = 1000]. *)
Definition after_hat_event (now : float) : StreamPad :=
  match after [at_time 1000; handle_event (JOYHATMOTION 0 (-1, 0)%Z);
               at_time now]
          (initial_state 0 (Some switch_pad) SNES_SWITCH true) with
  | Done st => st
  | _ => initial_state 0 (Some switch_pad) SNES_SWITCH true
  end.

(** The same, with the window out of focus and the button 1 of the
    device pressed. *)
Definition unfocused_after_hat_event (now : float) : StreamPad :=
  set_display_active false
    (set_active_controller
       (Some {| get_name := "SNES Controller for Switch";
                get_instance_id := 0; get_init := true;
                buttons := [false; true]; hats := [(-1, 0)%Z] |})
       (after_hat_event now)).

(** The window is out of focus and the hat of the device points left. *)
Definition unfocused_hat_left : StreamPad :=
  set_display_active false
    (initial_state 0
       (Some {| get_name := "USB Gamepad"; get_instance_id := 0;
                get_init := true; buttons := replicate 16 false;
                hats := [(-1, 0)%Z] |})
       GENERIC false).

(** An operation keeps the invariant of the notes, however it ends. *)
Definition preserves (f : StreamPad -> outcome) : Prop :=
  forall st, note_inv st -> outcome_inv (f st).

(** * The other functions of the input paths *)

(** ** [detect_controller_type] and the scan of [__init__] *)

(** [c.lower()] for one character of a device name.  Names are taken to be
    ASCII: the letters A to Z are the only ones that change. *)
Definition lower_ascii (c : Ascii.ascii) : Ascii.ascii :=
  let n := Ascii.N_of_ascii c in
  if (65 <=? n)%N && (n <=? 90)%N then Ascii.ascii_of_N (n + 32) else c.

Fixpoint lower (s : string) : string :=
  match s with
  | EmptyString => EmptyString
  | String c s' => String (lower_ascii c) (lower s')
  end.

(** [sub in s] *)
Fixpoint contains (sub s : string) : bool :=
  String.prefix sub s ||
  match s with
  | EmptyString => false
  | String _ s' => contains sub s'
  end.

Definition detect_controller_type (controller : Joystick) : ControllerType :=
  let name := lower (get_name controller) in
  if contains "pro controller" name || contains "switch pro" name
  then SWITCH_PRO
  else if contains "nintendo" name || contains "switch" name
          || contains "snes" name
  then SNES_SWITCH
  else if contains "ps4" name || contains "dualshock" name then PS4
  else if contains "ps5" name || contains "dualsense" name then PS5
  else if contains "xbox" name || contains "microsoft" name then XBOX
  else GENERIC.

Definition get_numhats (c : Joystick) : Z := Z.of_nat (length (hats c)).

(** The value that [initial_controller_scan] gives to
    [self.nintendo_hat_only] for the controller it selects. *)
Definition detect_hat_only (c : Joystick) : bool :=
  let has_hat := (0 <? get_numhats c)%Z in
  has_hat && (contains "nintendo" (lower (get_name c))
              || contains "switch" (lower (get_name c))).

(** The state after [__init__] when [initial_controller_scan] finds the
    devices [devices], in this order, and initialises them without error:
    the first one becomes the active controller.  (The dictionary
    [self.controllers] and the flag [raw_dump] are not part of the
    state.) *)
Definition startup_state (t0 : float) (devices : list Joystick) : StreamPad :=
  match devices with
  | [] => initial_state t0 None GENERIC false
  | c :: _ =>
      initial_state t0 (Some c) (detect_controller_type c) (detect_hat_only c)
  end.

(** ** The axes *)

(** The axes are read from the device at each call: [axes] is the list of
    what [get_axis(0)], [get_axis(1)], ... return, and its length is
    [get_numaxes()]. *)

(** [press_release] of the trigger code, which is also the body of the
    loop over the four directions of the stick: an emission when
    [pressed] differs from the last known state of [flag_key], which is
    then updated. *)
Definition press_release (press release : string -> StreamPad -> outcome)
    (flag_key : string) (pressed : bool) (button_id : string)
    (st : StreamPad) : outcome :=
  let was := default false (last_axis_states st !! flag_key) in
  if negb (Bool.eqb pressed was) then
    st <- (if pressed then press button_id st else release button_id st) ;;
    Done (set_last_axis_states
            (<[flag_key := pressed]> (last_axis_states st)) st)
  else Done st.

(** The list [directions] of the stick code, with [deadzone = 0.5]. *)
Definition stick_directions (x_axis y_axis : float)
    : list (string * bool * string) :=
  [("left", (x_axis <? - 0.5)%float, "14");
   ("right", (0.5 <? x_axis)%float, "15");
   ("up", (y_axis <? - 0.5)%float, "12");
   ("down", (0.5 <? y_axis)%float, "13")].

Definition stick_loop (press release : string -> StreamPad -> outcome)
    (x_axis y_axis : float) : StreamPad -> outcome :=
  for_each (stick_directions x_axis y_axis)
    (fun d => press_release press release d.1.1 d.1.2 d.2).

Definition is_snes_switch (ct : ControllerType) : bool :=
  match ct with
  | SNES_SWITCH => true
  | _ => false
  end.

Definition handle_joystick_axes (axes : list float) (st : StreamPad)
    : outcome :=
  match active_controller st with
  | None => Done st
  | Some c =>
      if is_snes_switch (controller_type st) then Done st
      else if negb (get_init c) then Done st
      else
        match axes with
        | x_axis :: y_axis :: _ =>
            stick_loop on_button_press on_button_release x_axis y_axis st
        | _ => Done st
        end
  end.

(** [handle_trigger_axes]; [check_global_trigger_axes] has the same
    text. *)
Definition handle_trigger_axes (axes : list float) (st : StreamPad)
    : outcome :=
  except_pass any_exception
    match active_controller st with
    | None => Done st
    | Some c =>
        if negb (get_init c) then Done st
        else
          let n := length axes in
          if (n <=? 2)%nat then Done st
          else
            st <- (if (5 <=? n)%nat then
                     match axes !! 4%nat with
                     | Some l2 =>
                         press_release on_button_press on_button_release
                           "zl_axis" (0.5 <? l2)%float "6" st
                     | None => Raised PygameError st
                     end
                   else Done st) ;;
            if (6 <=? n)%nat then
              match axes !! 5%nat with
              | Some r2 =>
                  press_release on_button_press on_button_release
                    "zr_axis" (0.5 <? r2)%float "7" st
              | None => Raised PygameError st
              end
            else Done st
    end.

Definition check_global_trigger_axes : list float -> StreamPad -> outcome :=
  handle_trigger_axes.

(** The end of [handle_events], after the loop over the events. *)
Definition handle_axes (axes : list float) (st : StreamPad) : outcome :=
  match active_controller st with
  | Some _ =>
      st <- handle_joystick_axes axes st ;; handle_trigger_axes axes st
  | None => Done st
  end.

Definition check_global_joystick_axes (axes : list float) (st : StreamPad)
    : outcome :=
  except_pass any_exception
    match active_controller st with
    | None => Done st
    | Some c =>
        if negb (get_init c) then Done st
        else
          match axes with
          | x_axis :: y_axis :: _ =>
              stick_loop (locked on_button_press) (locked on_button_release)
                x_axis y_axis st
          | _ => Done st
          end
    end.

(** One pass of the polling thread.  The three tests at the top are
    those of [check_global_buttons], which then runs its loop. *)
Definition check_global_controller_input (axes : list float)
    (st : StreamPad) : outcome :=
  except_pass any_exception
    match active_controller st with
    | None => Done st
    | Some gamepad =>
        if negb (get_init gamepad) then Done st
        else if display_active st then Done st
        else
          st <- check_global_buttons st ;;
          st <- check_global_hat st ;;
          st <- (if is_snes_switch (controller_type st) then Done st
                 else check_global_joystick_axes axes st) ;;
          check_global_trigger_axes axes st
    end.

(** ** Runs with the axes *)

Inductive run_step : StreamPad -> StreamPad -> Prop :=
  | run_step_base st st' :
      step st st' -> run_step st st'
  | run_step_stick axes st st' :
      handle_joystick_axes axes st = Done st' -> run_step st st'
  | run_step_trigger axes st st' :
      handle_trigger_axes axes st = Done st' -> run_step st st'
  | run_step_poll axes st st' :
      check_global_controller_input axes st = Done st' -> run_step st st'
  | run_step_poll_stick axes st st' :
      check_global_joystick_axes axes st = Done st' -> run_step st st'
  | run_step_periodic timer dt timer' st st' :
      periodic_validation timer dt st = (timer', Done st') -> run_step st st'.

(** The states of a run.  A step is a call that returns: the lock is
    free in every state of a run, and the states that follow a call that
    has blocked with the lock held are not among them. *)
Inductive in_run : StreamPad -> Prop :=
  | in_run_init t0 c ct hat_only :
      in_run (initial_state t0 c ct hat_only)
  | in_run_step st st' :
      in_run st -> run_step st st' -> in_run st'.

(** ** What holds in a run *)

(** The fields that the emission functions, the notes and the cleanup
    work on are the same in [st] and [st']. *)
Record same_core (st st' : StreamPad) : Prop := mk_same_core {
  core_button_states : button_states st' = button_states st;
  core_note_objects : note_objects st' = note_objects st;
  core_notes : notes st' = notes st;
  core_active_notes : active_notes st' = active_notes st;
  core_button_press_count : button_press_count st' = button_press_count st;
  core_total_presses : total_presses st' = total_presses st;
  core_console : console st' = console st;
}.

(** The fields that the emission functions and the notes leave alone are
    the same in [st] and [st']. *)
Record same_rest (st st' : StreamPad) : Prop := mk_same_rest {
  rest_clock : clock st' = clock st;
  rest_display_active : display_active st' = display_active st;
  rest_active_controller : active_controller st' = active_controller st;
  rest_controller_type : controller_type st' = controller_type st;
  rest_last_button_states : last_button_states st' = last_button_states st;
  rest_last_axis_states : last_axis_states st' = last_axis_states st;
  rest_last_hat_state : last_hat_state st' = last_hat_state st;
  rest_lane_width : lane_width st' = lane_width st;
  rest_lane_height : lane_height st' = lane_height st;
  rest_nintendo_hat_only : nintendo_hat_only st' = nintendo_hat_only st;
  rest_last_hat_event_time :
    last_hat_event_time st' = last_hat_event_time st;
  rest_last_global_button_states :
    last_global_button_states st' = last_global_button_states st;
  rest_last_global_hat_state :
    last_global_hat_state st' = last_global_hat_state st;
  rest_global_input_lock : global_input_lock st' = global_input_lock st;
}.

(** The sum of the per-id counters. *)
Definition sum_counts (m : gmap string Z) : Z :=
  map_fold (fun _ v acc => (v + acc)%Z) 0%Z m.

Definition is_Pressed (e : Emission) : bool :=
  match e with
  | Pressed _ => true
  | Released _ => false
  end.

(** The number of press lines printed so far. *)
Definition pressed_lines (l : list Emission) : Z :=
  Z.of_nat (length (List.filter is_Pressed l)).

(** The invariant of a run: the lock is free between two calls, every
    active note is a growing note of [self.notes] owned by its key, whose
    id is marked pressed, every id of [BUTTON_ORDER] that is marked
    pressed has an active note, and the total counter is the sum of the
    per-id counters and the number of press lines. *)
Record run_inv (st : StreamPad) : Prop := mk_run_inv {
  run_lock : global_input_lock st = false;
  run_notes : note_inv st;
  run_active : forall b r,
    active_notes st !! b = Some r ->
    r ∈ notes st
    /\ already_pressed st b = true
    /\ exists n, note_objects st !! r = Some n
                 /\ is_growing n = true /\ button_id n = b;
  run_pressed : forall b,
    already_pressed st b = true -> b ∈ BUTTON_ORDER ->
    is_Some (active_notes st !! b);
  run_total : total_presses st = sum_counts (button_press_count st);
  run_lines : total_presses st = pressed_lines (console st);
}.

Definition run_ok (o : outcome) : Prop :=
  match o with
  | Done st | Raised _ st => run_inv st
  | Blocked => True
  end.

(** An operation keeps the invariant of a run, however it ends. *)
Definition keeps (f : StreamPad -> outcome) : Prop :=
  forall st, run_inv st -> run_ok (f st).

(** An operation called with the lock free returns, with the lock free
    again. *)
Definition returns (f : StreamPad -> outcome) : Prop :=
  forall st,
    global_input_lock st = false ->
    exists st', f st = Done st' /\ global_input_lock st' = false.

Definition emission_id (e : Emission) : string :=
  match e with
  | Pressed b | Released b => b
  end.

(** From [st] to [st'] only lines for the ids [ids] were printed, and
    only these ids changed in [self.button_states]. *)
Definition emits_only (ids : list string) (st st' : StreamPad) : Prop :=
  exists l,
    console st' = (console st ++ l)%list
    /\ Forall (fun e => emission_id e ∈ ids) l
    /\ forall b, b ∉ ids -> button_states st' !! b = button_states st !! b.

(** The four directions that the hat code reads off a hat vector: left,
    right, up, down. *)
Definition hat_directions (v : Z * Z) : bool * bool * bool * bool :=
  ((v.1 <? 0)%Z, (0 <? v.1)%Z, (0 <? v.2)%Z, (v.2 <? 0)%Z).

(** * Properties *)

(** Reads a field through the assignments before it. *)
Ltac fields :=
  cbn [clock display_active active_controller controller_type button_states
       last_button_states last_axis_states last_hat_state lane_width
       lane_height note_objects notes active_notes button_press_count
       total_presses nintendo_hat_only last_hat_event_time
       last_global_button_states last_global_hat_state global_input_lock
       console set_clock set_display_active set_active_controller
       set_button_states set_last_button_states set_last_axis_states
       set_last_hat_state set_note_objects set_notes set_active_notes
       set_button_press_count set_total_presses set_last_hat_event_time
       set_last_global_button_states set_last_global_hat_state
       set_global_input_lock set_console print].

Tactic Notation "fields" "in" hyp(H) :=
  cbn [clock display_active active_controller controller_type button_states
       last_button_states last_axis_states last_hat_state lane_width
       lane_height note_objects notes active_notes button_press_count
       total_presses nintendo_hat_only last_hat_event_time
       last_global_button_states last_global_hat_state global_input_lock
       console set_clock set_display_active set_active_controller
       set_button_states set_last_button_states set_last_axis_states
       set_last_hat_state set_note_objects set_notes set_active_notes
       set_button_press_count set_total_presses set_last_hat_event_time
       set_last_global_button_states set_last_global_hat_state
       set_global_input_lock set_console print] in H.

(** ** The lock *)

Lemma unlock_lock st :
  global_input_lock st = false ->
  set_global_input_lock false (set_global_input_lock true st) = st.
Proof. destruct st; simpl; intros ->; reflexivity. Qed.

Lemma press_update_lock b button_id st :
  press_update button_id (set_global_input_lock b st)
  = set_global_input_lock b (press_update button_id st).
Proof.
  unfold press_update, create_ddr_note.
  destruct (list_index button_id BUTTON_ORDER); reflexivity.
Qed.

Lemma release_update_lock b button_id st :
  release_update button_id (set_global_input_lock b st)
  = set_global_input_lock b (release_update button_id st).
Proof.
  unfold release_update, end_ddr_note; simpl.
  destruct (active_notes st !! button_id); reflexivity.
Qed.

Lemma on_button_press_free button_id st :
  global_input_lock st = false ->
  on_button_press button_id st
  = Done (if already_pressed st button_id then st
          else press_update button_id st).
Proof.
  intros Hfree. unfold on_button_press, with_lock. rewrite Hfree.
  change (already_pressed (set_global_input_lock true st) button_id)
    with (already_pressed st button_id).
  destruct (already_pressed st button_id).
  - by rewrite unlock_lock.
  - rewrite press_update_lock.
    f_equal. destruct (press_update button_id st) eqn:E.
    assert (global_input_lock (press_update button_id st) = false) as Hl.
    { unfold press_update, create_ddr_note.
      destruct (list_index button_id BUTTON_ORDER); exact Hfree. }
    rewrite E in Hl. simpl in Hl. subst. reflexivity.
Qed.

Lemma on_button_release_free button_id st :
  global_input_lock st = false ->
  on_button_release button_id st
  = Done (if already_pressed st button_id then release_update button_id st
          else st).
Proof.
  intros Hfree. unfold on_button_release, with_lock. rewrite Hfree.
  change (already_pressed (set_global_input_lock true st) button_id)
    with (already_pressed st button_id).
  destruct (already_pressed st button_id); simpl.
  - rewrite release_update_lock.
    f_equal. destruct (release_update button_id st) eqn:E.
    assert (global_input_lock (release_update button_id st) = false) as Hl.
    { unfold release_update, end_ddr_note; simpl.
      destruct (active_notes st !! button_id); exact Hfree. }
    rewrite E in Hl. simpl in Hl. subst. reflexivity.
  - by rewrite unlock_lock.
Qed.

(** A thread that holds the lock and calls an emission function waits for
    ever: the lock is not re-entrant. *)
Lemma locked_blocks emit button_id st :
  (emit = on_button_press \/ emit = on_button_release) ->
  locked emit button_id st = Blocked.
Proof.
  intros [-> | ->]; unfold locked, with_lock;
    destruct (global_input_lock st); reflexivity.
Qed.

Lemma on_button_press_held button_id st :
  global_input_lock st = true -> on_button_press button_id st = Blocked.
Proof. intros H. unfold on_button_press, with_lock. by rewrite H. Qed.

Lemma on_button_release_held button_id st :
  global_input_lock st = true -> on_button_release button_id st = Blocked.
Proof. intros H. unfold on_button_release, with_lock. by rewrite H. Qed.

Lemma press_update_free button_id st :
  global_input_lock (press_update button_id st) = global_input_lock st.
Proof.
  unfold press_update, create_ddr_note.
  destruct (list_index button_id BUTTON_ORDER); reflexivity.
Qed.

Lemma release_update_free button_id st :
  global_input_lock (release_update button_id st) = global_input_lock st.
Proof.
  unfold release_update, end_ddr_note; simpl.
  destruct (active_notes st !! button_id); reflexivity.
Qed.

Lemma already_pressed_press_update button_id st :
  already_pressed (press_update button_id st) button_id = true.
Proof.
  unfold already_pressed, press_update, create_ddr_note.
  destruct (list_index button_id BUTTON_ORDER); simpl;
    by rewrite lookup_insert_eq.
Qed.

(** ** The button table *)

Lemma list_to_map_outside (l : list (Z * string)) (i : Z) :
  i ∉ l.*1 -> (list_to_map l : gmap Z string) !! i = None.
Proof. apply not_elem_of_list_to_map_1. Qed.

(** Closes [i ∉ l] for a list of literals [l] when [lia] tells [i] from
    each of them. *)
Ltac not_in_literals :=
  let H := fresh in
  intros H; simpl in H;
  repeat (apply elem_of_cons in H as [H | H]; [lia |]);
  by apply elem_of_nil in H.

Lemma generic_mapping_outside i :
  ¬ (0 <= i <= 15)%Z -> generic_mapping !! i = None.
Proof. intros Hi. apply list_to_map_outside. not_in_literals. Qed.

Lemma switch_pro_mapping_outside i :
  ¬ (0 <= i <= 15)%Z -> switch_pro_mapping !! i = None.
Proof. intros Hi. apply list_to_map_outside. not_in_literals. Qed.

Lemma dict_update_lookup (d u : gmap Z string) i :
  dict_update d u !! i = override_lookup d (Some u) i.
Proof.
  unfold dict_update, override_lookup. rewrite lookup_union.
  destruct (u !! i), (d !! i); reflexivity.
Qed.

(** Splits a goal about [i] with [0 <= i <= 17] into the eighteen cases. *)
Ltac each_index i :=
  let H := fresh in
  assert (i = 0 \/ i = 1 \/ i = 2 \/ i = 3 \/ i = 4 \/ i = 5 \/ i = 6 \/ i = 7
          \/ i = 8 \/ i = 9 \/ i = 10 \/ i = 11 \/ i = 12 \/ i = 13 \/ i = 14
          \/ i = 15 \/ i = 16 \/ i = 17)%Z as H by lia;
  repeat (destruct H as [H | H]; [subst i |]); [.. | subst i].

(** C3, as stated, fails: in [streampad.py] the SwitchPro table is
    assigned to [mapping], it does not update it, and the raw index 5,
    which it does not list, is unmapped although the generic table maps it
    to ['5']. *)
Lemma override_semantics_counterexample :
  get_button_mapping SWITCH_PRO 5
  <> override_lookup generic_mapping (family_table SWITCH_PRO) 5.
Proof. vm_compute. discriminate. Qed.

(** C3, amended: in [streampad.py] the table has override semantics for
    every family and raw index except for SwitchPro at the raw indices 5
    and 15, which the SwitchPro table does not list and which are unmapped
    there; in [streampad_pygame.py] it has override semantics for every
    family and raw index. *)
Theorem get_button_mapping_override ct i :
  get_button_mapping ct i
  = (match ct with
     | SWITCH_PRO =>
         if bool_decide (i = 5 \/ i = 15)%Z then None
         else override_lookup generic_mapping (family_table ct) i
     | _ => override_lookup generic_mapping (family_table ct) i
     end)
  /\ Variant.get_button_mapping ct i
     = override_lookup Variant.generic_mapping (variant_family_table ct) i.
Proof.
  split.
  - destruct ct; try reflexivity.
    + unfold get_button_mapping, button_table, family_table, override_lookup.
      destruct (decide (0 <= i <= 15)%Z) as [Hi | Hi].
      * each_index i; try lia; vm_compute; reflexivity.
      * rewrite bool_decide_eq_false_2 by lia.
        by rewrite switch_pro_mapping_outside, generic_mapping_outside.
    + apply dict_update_lookup.
  - destruct ct; try reflexivity.
    + unfold Variant.get_button_mapping, Variant.button_table,
        variant_family_table, override_lookup.
      destruct (Variant.switch_pro_mapping !! i) eqn:E; [reflexivity |].
      destruct (decide (0 <= i <= 17)%Z) as [Hi | Hi].
      * each_index i; vm_compute in E; discriminate.
      * symmetry. apply list_to_map_outside. not_in_literals.
    + apply dict_update_lookup.
Qed.

(** ** The emission function [on_button_press] *)

Lemma list_index_None s l : s ∉ l -> list_index s l = None.
Proof.
  induction l as [| s' l IH]; [reflexivity |].
  intros Hs. apply not_elem_of_cons in Hs as [Hne Hl]. simpl.
  destruct (String.eqb_spec s s'); [done |]. by rewrite IH.
Qed.

Lemma list_index_Some s l : s ∈ l -> is_Some (list_index s l).
Proof.
  induction l as [| s' l IH]; [by intros ?%elem_of_nil |].
  intros Hs. simpl. destruct (String.eqb_spec s s'); [by eexists |].
  apply elem_of_cons in Hs as [? | Hs]; [done |].
  destruct (IH Hs) as [k ->]. by eexists.
Qed.

(** C6: [press(id)] and at once [press(id)] again: the second press
    returns the state of the first unchanged (store, counters, notes and
    all the rest), so the two count once: when [id] was not held before
    the first press, the total is one more than before. *)
Theorem press_twice_counts_once button_id st :
  global_input_lock st = false ->
  exists st1,
    on_button_press button_id st = Done st1
    /\ on_button_press button_id st1 = Done st1
    /\ (already_pressed st button_id = false ->
        total_presses st1 = (total_presses st + 1)%Z
        /\ button_press_count st1 !! button_id
           = Some (default 0 (button_press_count st !! button_id) + 1)%Z).
Proof.
  intros Hfree. rewrite on_button_press_free by done.
  destruct (already_pressed st button_id) eqn:Hheld.
  - exists st. split; [done |]. split; [| done].
    rewrite on_button_press_free by done. by rewrite Hheld.
  - exists (press_update button_id st). split; [done |]. split.
    + rewrite on_button_press_free by (by rewrite press_update_free).
      by rewrite already_pressed_press_update.
    + intros _. unfold press_update, create_ddr_note.
      destruct (list_index button_id BUTTON_ORDER); simpl;
        by rewrite lookup_insert_eq.
Qed.

Lemma press_twice_counts_once_witness :
  exists st1,
    on_button_press "1" (initial_state 0 None GENERIC false) = Done st1
    /\ on_button_press "1" st1 = Done st1
    /\ total_presses st1 = 1%Z
    /\ button_press_count st1 !! "1" = Some 1%Z.
Proof.
  destruct (press_twice_counts_once "1" (initial_state 0 None GENERIC false))
    as (st1 & H1 & H2 & H3); [reflexivity |].
  exists st1. split; [exact H1 |]. split; [exact H2 |].
  apply H3. reflexivity.
Defined.

(** C10: a press of an id that is not in [BUTTON_ORDER] (such as ['10']
    and ['11'], which the SwitchPro table gives for the stick clicks) and
    that is not held marks it pressed and counts it, per id and in total,
    and leaves the notes as they were: the list of notes, the active
    notes and the note objects. *)
Theorem press_outside_button_order button_id st :
  button_id ∉ BUTTON_ORDER ->
  global_input_lock st = false ->
  already_pressed st button_id = false ->
  exists st',
    on_button_press button_id st = Done st'
    /\ button_states st' !! button_id = Some true
    /\ button_press_count st' !! button_id
       = Some (default 0 (button_press_count st !! button_id) + 1)%Z
    /\ total_presses st' = (total_presses st + 1)%Z
    /\ notes st' = notes st
    /\ active_notes st' = active_notes st
    /\ note_objects st' = note_objects st.
Proof.
  intros Hout Hfree Hheld.
  rewrite on_button_press_free by done. rewrite Hheld.
  exists (press_update button_id st). split; [done |].
  unfold press_update, create_ddr_note. rewrite (list_index_None _ _ Hout).
  simpl. by rewrite !lookup_insert_eq.
Qed.

Lemma press_outside_button_order_witness :
  get_button_mapping SWITCH_PRO 7 = Some "10"
  /\ exists st',
    on_button_press "10" (initial_state 0 None SWITCH_PRO false) = Done st'
    /\ button_states st' !! "10" = Some true
    /\ button_press_count st' !! "10" = Some 1%Z
    /\ total_presses st' = 1%Z
    /\ notes st' = []
    /\ active_notes st' = ∅
    /\ note_objects st' = [].
Proof.
  split; [reflexivity |].
  apply (press_outside_button_order "10"
           (initial_state 0 None SWITCH_PRO false)).
  - apply (bool_decide_unpack _). vm_compute. exact I.
  - reflexivity.
  - reflexivity.
Defined.

(** ** Note kinematics: [update_ddr_notes] *)

Lemma growth_rate_per_ms : (growth_rate / 1000 = 0.08)%float.
Proof. reflexivity. Qed.

Lemma note_speed_per_ms : (note_speed / 1000 = 0.15)%float.
Proof. reflexivity. Qed.

Lemma min_note_height_float : Z2f min_note_height = 8%float.
Proof. reflexivity. Qed.

(** Updating a note twice at the same time is updating it once. *)
Lemma update_note_twice now n :
  (update_note now (update_note now n).1).1 = (update_note now n).1.
Proof.
  unfold update_note. destruct n as [? ? ? ? ? ? ? [e |] [] ?]; simpl;
    try reflexivity.
  destruct (float_truthy e) eqn:E; simpl; rewrite E; reflexivity.
Qed.

Lemma update_note_owner now n :
  is_growing (update_note now n).1 = is_growing n
  /\ button_id (update_note now n).1 = button_id n.
Proof.
  unfold update_note. destruct (is_growing n) eqn:E; simpl; [done |].
  destruct (end_time n) as [e |]; [| done].
  destruct (float_truthy e); done.
Qed.

Lemma update_loop_lookup now l : forall objs rm r n,
  objs !! r = Some n ->
  (update_loop now l objs rm).1 !! r
  = Some (if bool_decide (r ∈ l) then (update_note now n).1 else n).
Proof.
  induction l as [| r' l IH]; intros objs rm r n Hr; simpl.
  - by rewrite Hr.
  - destruct (objs !! r') as [n0 |] eqn:Hr'.
    + destruct (update_note now n0) as [n0' off] eqn:Hu.
      destruct (decide (r = r')) as [-> | Hne].
      * assert (n0 = n) as -> by congruence.
        rewrite (IH _ _ r' n0').
        2:{ apply list_lookup_insert_eq. by eapply lookup_lt_Some. }
        rewrite (bool_decide_eq_true_2 (r' ∈ r' :: l)) by apply list_elem_of_here.
        assert (n0' = (update_note now n).1) as -> by (by rewrite Hu).
        rewrite update_note_twice. by case_bool_decide.
      * rewrite (IH _ _ r n) by (by rewrite list_lookup_insert_ne).
        rewrite (bool_decide_ext (r ∈ r' :: l) (r ∈ l)); [done |].
        rewrite elem_of_cons. tauto.
    + rewrite (IH _ _ r n) by done.
      assert (r <> r') by congruence.
      rewrite (bool_decide_ext (r ∈ r' :: l) (r ∈ l)); [done |].
      rewrite elem_of_cons. tauto.
Qed.

Lemma update_ddr_notes_objects st :
  note_objects (update_ddr_notes st)
  = (update_loop (clock st) (notes st) (note_objects st) []).1.
Proof.
  unfold update_ddr_notes.
  destruct (update_loop (clock st) (notes st) (note_objects st) []).
  reflexivity.
Qed.

(** C8: the geometry of a note of [self.notes] after [update_ddr_notes]
    is a function of the clock.  A growing note has the height
    [8 + elapsed_ms * 0.08], with [elapsed_ms] the milliseconds since its
    creation, above its fixed bottom.  A released note (with a release
    stamp other than [0.0]) keeps its height and has its top edge at
    [initial_bottom - height - elapsed_ms * 0.15], with [elapsed_ms] the
    milliseconds since its release.  The arithmetic is that of binary64
    floats, as in the code. *)
Theorem note_kinematics st r n :
  r ∈ notes st ->
  note_objects st !! r = Some n ->
  exists n',
    note_objects (update_ddr_notes st) !! r = Some n'
    /\ (is_growing n = true ->
        height n' = (8 + (clock st - start_time n) * 1000 * 0.08)%float
        /\ y n' = (initial_bottom n - height n')%float)
    /\ (forall e,
        is_growing n = false -> end_time n = Some e -> float_truthy e = true ->
        height n' = height n
        /\ y n' = (initial_bottom n - height n
                   - (clock st - e) * 1000 * 0.15)%float).
Proof.
  intros Hin Hr. exists (update_note (clock st) n).1.
  rewrite update_ddr_notes_objects, (update_loop_lookup _ _ _ _ r n Hr).
  rewrite bool_decide_eq_true_2 by done. split; [done |].
  unfold update_note. split.
  - intros ->. cbn [fst height y set_geometry].
    rewrite growth_rate_per_ms, min_note_height_float. done.
  - intros e -> -> ->. cbn [fst height y set_geometry].
    rewrite note_speed_per_ms. done.
Qed.

(** A note created at [t = 0] and held for 500 ms is 48 units high, and
    1000 ms after its release its top edge is at [baseline - 198]. *)
Lemma note_kinematics_witness :
  (exists n',
     note_objects held_500ms !! 0%nat = Some n' /\ height n' = 48%float)
  /\ (exists n',
        note_objects (update_ddr_notes released_1000ms) !! 0%nat = Some n'
        /\ height n' = 48%float
        /\ y n' = (Z2f (SCREEN_HEIGHT - 100 - self_initial_bottom) - 198)%float).
Proof.
  split.
  - destruct (note_kinematics
                (set_clock 0.5 (press_update "1"
                                  (initial_state 0 None GENERIC false)))
                0%nat
                {| x := 600; y := 487; width := 75; height := 8;
                   color := (255, 99, 71)%Z; button_id := "1";
                   start_time := 0; end_time := None; is_growing := true;
                   initial_bottom := 495 |})
      as (n' & Hn' & Hgrow & _).
    + vm_compute. apply list_elem_of_here.
    + vm_compute. reflexivity.
    + exists n'. split; [exact Hn' |].
      destruct (Hgrow eq_refl) as [-> _]. vm_compute. reflexivity.
  - destruct (note_kinematics released_1000ms 0%nat
                {| x := 600; y := 447; width := 75; height := 48;
                   color := (255, 99, 71)%Z; button_id := "1";
                   start_time := 0; end_time := Some 0.5%float;
                   is_growing := false; initial_bottom := 495 |})
      as (n' & Hn' & _ & Hrel).
    + vm_compute. apply list_elem_of_here.
    + vm_compute. reflexivity.
    + exists n'. split; [exact Hn' |].
      destruct (Hrel 0.5%float eq_refl eq_refl eq_refl) as [-> ->].
      split; vm_compute; reflexivity.
Defined.

(** ** The invariant of the notes *)

Lemma note_inv_same st st' :
  notes st' = notes st ->
  note_objects st' = note_objects st ->
  button_states st' = button_states st ->
  active_notes st' = active_notes st ->
  note_inv st -> note_inv st'.
Proof.
  intros Hn Ho Hb Ha [H1 H2 H3]. split.
  - by rewrite Hn.
  - intros r. rewrite Hn, Ho. apply H2.
  - intros r n. unfold already_pressed. rewrite Hn, Ho, Hb, Ha. apply H3.
Qed.

Lemma note_inv_initial t0 c ct hat_only :
  note_inv (initial_state t0 c ct hat_only).
Proof.
  split; simpl.
  - constructor.
  - by intros r ?%elem_of_nil.
  - by intros r n ?%elem_of_nil.
Qed.

Lemma note_inv_press_update button_id0 st :
  note_inv st -> already_pressed st button_id0 = false ->
  note_inv (press_update button_id0 st).
Proof.
  intros [Hnd Hal Hgr] Hfree. unfold press_update, create_ddr_note.
  destruct (list_index button_id0 BUTTON_ORDER) as [lane |]; cbv zeta.
  - set (note := new_note button_id0 lane _).
    assert (button_id note = button_id0) as Hown by reflexivity.
    clearbody note.
    split; unfold already_pressed; fields.
    + apply NoDup_app. split; [done |]. split; [| apply NoDup_singleton].
      intros r Hr ->%list_elem_of_singleton. apply Hal in Hr. lia.
    + intros r [Hr | ->%list_elem_of_singleton]%elem_of_app;
        rewrite length_app; simpl; [apply Hal in Hr |]; lia.
    + intros r n [Hr | ->%list_elem_of_singleton]%elem_of_app Hn Hg.
      * rewrite lookup_app_l in Hn by (by apply Hal).
        destruct (Hgr r n Hr Hn Hg) as [Hp Ha].
        assert (button_id n <> button_id0) by congruence.
        unfold already_pressed in *.
        by rewrite !lookup_insert_ne.
      * rewrite list_lookup_middle in Hn by done.
        injection Hn as <-. rewrite Hown.
        by rewrite !lookup_insert_eq.
  - split; unfold already_pressed; fields; [done | done |].
    intros r n Hr Hn Hg. destruct (Hgr r n Hr Hn Hg) as [Hp Ha].
    split; [| done]. unfold already_pressed in *.
    destruct (decide (button_id0 = button_id n)) as [-> | Hne].
    + by rewrite lookup_insert_eq.
    + by rewrite lookup_insert_ne.
Qed.

Lemma note_inv_release_update button_id0 st :
  note_inv st -> note_inv (release_update button_id0 st).
Proof.
  intros [Hnd Hal Hgr]. unfold release_update, end_ddr_note. simpl.
  destruct (active_notes st !! button_id0) as [r0 |] eqn:Hact; simpl.
  - split; simpl; [done | |].
    + intros r Hr. rewrite length_alter. by apply Hal.
    + intros r n Hr Hn Hg.
      destruct (decide (r0 = r)) as [-> | Hne].
      * rewrite list_lookup_alter_eq in Hn.
        destruct (note_objects st !! r); simplify_eq/=.
      * rewrite list_lookup_alter_ne in Hn by done.
        destruct (Hgr r n Hr Hn Hg) as [Hp Ha].
        assert (button_id n <> button_id0) by congruence.
        unfold already_pressed in *. simpl.
        rewrite lookup_insert_ne by done.
        by rewrite lookup_delete_ne.
  - split; simpl; [done | done |].
    intros r n Hr Hn Hg. destruct (Hgr r n Hr Hn Hg) as [Hp Ha].
    assert (button_id n <> button_id0) by congruence.
    unfold already_pressed in *. simpl.
    by rewrite lookup_insert_ne.
Qed.

Lemma update_loop_length now l : forall objs rm,
  length (update_loop now l objs rm).1 = length objs.
Proof.
  induction l as [| r l IH]; intros objs rm; simpl; [done |].
  destruct (objs !! r) as [n |]; [| apply IH].
  destruct (update_note now n) as [n' off].
  rewrite IH. apply length_insert.
Qed.

Lemma remove_note_sublist objs r l : remove_note objs r l `sublist_of` l.
Proof.
  induction l as [| r' l IH]; simpl; [constructor |].
  destruct (same_note objs r' r).
  - by apply sublist_cons.
  - by apply sublist_skip.
Qed.

Lemma purge_sublist objs rm : forall l,
  foldl (fun l r => remove_note objs r l) l rm `sublist_of` l.
Proof.
  induction rm as [| r rm IH]; intros l; simpl; [done |].
  etrans; [apply IH | apply remove_note_sublist].
Qed.

Lemma update_ddr_notes_sublist st :
  notes (update_ddr_notes st) `sublist_of` notes st.
Proof.
  unfold update_ddr_notes.
  destruct (update_loop (clock st) (notes st) (note_objects st) []).
  simpl. apply purge_sublist.
Qed.

Lemma update_ddr_notes_rest st :
  button_states (update_ddr_notes st) = button_states st
  /\ active_notes (update_ddr_notes st) = active_notes st.
Proof.
  unfold update_ddr_notes.
  destruct (update_loop (clock st) (notes st) (note_objects st) []).
  done.
Qed.

Lemma note_inv_update st : note_inv st -> note_inv (update_ddr_notes st).
Proof.
  intros [Hnd Hal Hgr].
  pose proof (update_ddr_notes_sublist st) as Hsub.
  destruct (update_ddr_notes_rest st) as [Hb Ha].
  split.
  - by eapply sublist_NoDup.
  - intros r Hr. rewrite update_ddr_notes_objects, update_loop_length.
    apply Hal. by eapply elem_of_sublist.
  - intros r n' Hr Hn' Hg. unfold already_pressed. rewrite Hb, Ha.
    assert (r ∈ notes st) as Hr0 by (by eapply elem_of_sublist).
    destruct (lookup_lt_is_Some_2 (note_objects st) r (Hal r Hr0)) as [n Hn].
    rewrite update_ddr_notes_objects,
      (update_loop_lookup _ _ _ _ r n Hn) in Hn'.
    rewrite bool_decide_eq_true_2 in Hn' by done.
    injection Hn' as <-.
    destruct (update_note_owner (clock st) n) as [Hg' Ho'].
    rewrite Ho'. rewrite Hg' in Hg. by apply Hgr.
Qed.

Lemma preserves_for_each {A} (l : list A) body :
  (forall v, preserves (body v)) -> preserves (for_each l body).
Proof.
  intros Hbody. induction l as [| v l IH]; intros st Hst; simpl; [done |].
  pose proof (Hbody v st Hst) as Hv.
  destruct (body v st); simpl in *; auto.
Qed.

Lemma preserves_with_lock body : preserves body -> preserves (with_lock body).
Proof.
  intros Hbody st Hst. unfold with_lock.
  destruct (global_input_lock st); [done |].
  assert (note_inv (set_global_input_lock true st)) as Hst'
    by (by eapply note_inv_same; [.. | exact Hst]).
  pose proof (Hbody _ Hst') as Hb.
  destruct (body (set_global_input_lock true st)); simpl in *; [| | done];
    by eapply note_inv_same; [.. | exact Hb].
Qed.

Lemma outcome_inv_except_pass caught o :
  outcome_inv o -> outcome_inv (except_pass caught o).
Proof. destruct o; simpl; [done | | done]. by destruct (caught e). Qed.

Lemma preserves_on_button_press button_id0 :
  preserves (on_button_press button_id0).
Proof.
  apply preserves_with_lock. intros st Hst.
  destruct (already_pressed st button_id0) eqn:E; simpl; [done |].
  by apply note_inv_press_update.
Qed.

Lemma preserves_on_button_release button_id0 :
  preserves (on_button_release button_id0).
Proof.
  apply preserves_with_lock. intros st Hst.
  destruct (already_pressed st button_id0); simpl; [| done].
  by apply note_inv_release_update.
Qed.

Lemma preserves_locked emit button_id0 :
  preserves (emit button_id0) -> preserves (locked emit button_id0).
Proof. apply preserves_with_lock. Qed.

Lemma preserves_emit_mapped emit i :
  (forall b, preserves (emit b)) -> preserves (emit_mapped emit i).
Proof.
  intros Hemit st Hst. unfold emit_mapped.
  destruct (get_button_mapping (controller_type st) i) as [b |]; [| done].
  destruct (str_truthy b); [by apply Hemit | done].
Qed.

Lemma preserves_hat_transition press release desired previous bid :
  (forall b, preserves (press b)) -> (forall b, preserves (release b)) ->
  preserves (hat_transition press release desired previous bid).
Proof.
  intros Hp Hr st Hst. unfold hat_transition.
  assert (outcome_inv
            (if (desired !!! bid) && negb (previous !!! bid)
             then press bid st else Done st)) as H1.
  { destruct (_ && _); [by apply Hp | done]. }
  destruct (if (desired !!! bid) && negb (previous !!! bid)
            then press bid st else Done st) as [st1 | |]; simpl in *;
    [| done | done].
  destruct (_ && _); [by apply Hr | done].
Qed.

Lemma emergency_cleanup_free st :
  global_input_lock st = false ->
  exists st',
    emergency_cleanup st = Done st'
    /\ button_states st' = ∅
    /\ last_button_states st' = ∅
    /\ last_axis_states st' = ∅
    /\ last_global_button_states st' = ∅
    /\ last_hat_state st' = (0, 0)%Z
    /\ last_global_hat_state st' = (0, 0)%Z
    /\ last_hat_event_time st' = 0%float
    /\ notes st' = []
    /\ active_notes st' = ∅.
Proof.
  intros Hfree. unfold emergency_cleanup, with_lock. rewrite Hfree.
  cbn [active_notes set_notes set_active_notes].
  rewrite map_to_list_empty. simpl. eexists. split; [reflexivity |].
  simpl. repeat split.
Qed.

Lemma preserves_emergency_cleanup : preserves emergency_cleanup.
Proof.
  intros st Hst. unfold emergency_cleanup, with_lock.
  destruct (global_input_lock st); [done |].
  cbn [active_notes set_notes set_active_notes].
  rewrite map_to_list_empty. simpl.
  split; simpl.
  - constructor.
  - by intros r ?%elem_of_nil.
  - by intros r n ?%elem_of_nil.
Qed.

(** ** [validate_button_states] *)

(** The first loop never appends to [stuck_buttons]: the search of the
    raw index raises for the first id that is marked pressed. *)
Lemma validate_scan_stuck ct gamepad items : forall stuck_buttons,
  (validate_scan ct gamepad items stuck_buttons).1 = stuck_buttons.
Proof.
  induction items as [| [button_id0 pressed] items IH]; intros stuck;
    [reflexivity |].
  destruct pressed; [reflexivity | apply IH].
Qed.

(** The check never changes the state: either no id is marked pressed,
    or the search of the raw index of the first one raises [TypeError],
    with [stuck_buttons] still empty. *)
Lemma validate_button_states_noop st :
  global_input_lock st = false -> validate_button_states st = Done st.
Proof.
  intros Hfree. unfold validate_button_states.
  destruct (active_controller st) as [gamepad |]; [| done].
  destruct (get_init gamepad); simpl; [| done].
  rewrite Hfree. unfold validate_check.
  pose proof (validate_scan_stuck
                (controller_type (set_global_input_lock true st)) gamepad
                (map_to_list (button_states (set_global_input_lock true st)))
                []) as Hstuck.
  destruct (validate_scan _ _ _ _) as [stuck err]. simpl in Hstuck. subst stuck.
  destruct err; simpl; by rewrite unlock_lock.
Qed.

Lemma validate_button_states_outcome st :
  validate_button_states st = Done st \/ validate_button_states st = Blocked.
Proof.
  destruct (global_input_lock st) eqn:Hl.
  - unfold validate_button_states.
    destruct (active_controller st) as [gamepad |]; [| by left].
    destruct (get_init gamepad); simpl; [| by left].
    rewrite Hl. by right.
  - left. by apply validate_button_states_noop.
Qed.

Lemma preserves_validate : preserves validate_button_states.
Proof.
  intros st Hst. by destruct (validate_button_states_outcome st) as [-> | ->].
Qed.

Lemma preserves_handle_event event : preserves (handle_event event).
Proof.
  intros st Hst. destruct event as [joy button | joy button | joy value];
    unfold handle_event; cbv zeta; apply outcome_inv_except_pass.
  - destruct (from_active_controller st joy); [| done].
    apply preserves_emit_mapped; [apply preserves_on_button_press | done].
  - destruct (from_active_controller st joy); [| done].
    apply preserves_emit_mapped; [apply preserves_on_button_release | done].
  - set (st1 := set_last_hat_event_time (clock st) st).
    assert (note_inv st1) as Hst1 by (by eapply note_inv_same; [.. | exact Hst]).
    destruct (from_active_controller st1 joy); [| done].
    pose proof (preserves_for_each ["14"; "15"; "12"; "13"]
      (hat_transition on_button_press on_button_release (hat_dict value)
         (hat_dict (last_hat_state st1)))
      (fun bid => preserves_hat_transition _ _ _ _ bid
                    preserves_on_button_press preserves_on_button_release)
      st1 Hst1) as Hloop.
    destruct (for_each _ _ st1) as [st2 | |]; simpl in *; [| done | done].
    by eapply note_inv_same; [.. | exact Hloop].
Qed.

Lemma preserves_poll_button suppress reading :
  preserves (poll_button suppress reading).
Proof.
  intros st Hst. destruct reading as [i pressed]. unfold poll_button.
  assert (forall st0, note_inv st0 ->
            note_inv (set_last_global_button_states
                        (<[i := pressed]> (last_global_button_states st0)) st0))
    as Hrem by (intros st0 H0; by eapply note_inv_same; [.. | exact H0]).
  destruct suppress; [by apply Hrem |].
  destruct (_ && bool_decide _); [by apply Hrem |].
  assert (outcome_inv
            (if pressed && negb (default false (last_global_button_states st !! i))
             then emit_mapped (locked on_button_press) i st else Done st)) as H1.
  { destruct (_ && _); [| done].
    apply preserves_emit_mapped; [| done].
    intros b. apply preserves_locked, preserves_on_button_press. }
  destruct (if pressed && negb (default false (last_global_button_states st !! i))
            then emit_mapped (locked on_button_press) i st else Done st)
    as [st1 | |]; simpl in *; [| done | done].
  assert (outcome_inv
            (if negb pressed && default false (last_global_button_states st !! i)
             then emit_mapped (locked on_button_release) i st1 else Done st1))
    as H2.
  { destruct (_ && _); [| done].
    apply preserves_emit_mapped; [| done].
    intros b. apply preserves_locked, preserves_on_button_release. }
  destruct (if negb pressed && default false (last_global_button_states st !! i)
            then emit_mapped (locked on_button_release) i st1 else Done st1)
    as [st2 | |]; simpl in *; [| done | done].
  by apply Hrem.
Qed.

Lemma preserves_check_global_buttons : preserves check_global_buttons.
Proof.
  intros st Hst. unfold check_global_buttons. apply outcome_inv_except_pass.
  destruct (active_controller st) as [gamepad |]; [| done].
  destruct (get_init gamepad); simpl; [| done].
  destruct (display_active st); [done |].
  apply preserves_for_each; [| done]. intros v. apply preserves_poll_button.
Qed.

Lemma preserves_check_global_hat : preserves check_global_hat.
Proof.
  intros st Hst. unfold check_global_hat. apply outcome_inv_except_pass.
  destruct (active_controller st) as [c |]; [| done].
  destruct (get_init c); cbn [negb]; [| done].
  destruct (hats c) as [| [hx hy] ?]; [done |]. cbv zeta.
  pose proof (preserves_for_each ["14"; "15"; "12"; "13"]
    (hat_transition (locked on_button_press) (locked on_button_release)
       (hat_dict (hx, hy)) (hat_dict (last_hat_state st)))
    (fun bid => preserves_hat_transition _ _ _ _ bid
       (fun b => preserves_locked _ b (preserves_on_button_press b))
       (fun b => preserves_locked _ b (preserves_on_button_release b)))
    st Hst) as Hloop.
  destruct (for_each _ _ st) as [st2 | |]; simpl in *; [| done | done].
  by eapply note_inv_same; [.. | exact Hloop].
Qed.

Lemma step_note_inv st st' : step st st' -> note_inv st -> note_inv st'.
Proof.
  intros Hstep Hst. destruct Hstep as
    [b st st' H | b st st' H | st | st st' H | st st' H | ev st st' H
     | st st' H | st st' H | t st | b st | c st].
  - pose proof (preserves_on_button_press b st Hst) as Hp. by rewrite H in Hp.
  - pose proof (preserves_on_button_release b st Hst) as Hp. by rewrite H in Hp.
  - by apply note_inv_update.
  - pose proof (preserves_emergency_cleanup st Hst) as Hp. by rewrite H in Hp.
  - pose proof (preserves_validate st Hst) as Hp. by rewrite H in Hp.
  - pose proof (preserves_handle_event ev st Hst) as Hp. by rewrite H in Hp.
  - pose proof (preserves_check_global_buttons st Hst) as Hp. by rewrite H in Hp.
  - pose proof (preserves_check_global_hat st Hst) as Hp. by rewrite H in Hp.
  - by eapply note_inv_same; [.. | exact Hst].
  - by eapply note_inv_same; [.. | exact Hst].
  - by eapply note_inv_same; [.. | exact Hst].
Qed.

Lemma reachable_note_inv st : reachable st -> note_inv st.
Proof.
  induction 1 as [| st st' _ IH Hstep]; [apply note_inv_initial |].
  by eapply step_note_inv.
Qed.

Lemma filter_at_most_one (P : nat -> bool) (l : list nat) :
  NoDup l ->
  (forall r1 r2, r1 ∈ l -> r2 ∈ l -> P r1 = true -> P r2 = true -> r1 = r2) ->
  (length (List.filter P l) <= 1)%nat.
Proof.
  induction l as [| a l IH]; intros Hnd Huniq; simpl; [lia |].
  apply NoDup_cons in Hnd as [Ha Hnd].
  destruct (P a) eqn:HPa.
  - assert (List.filter P l = []) as ->; [| simpl; lia].
    destruct (List.filter P l) as [| b k] eqn:Hf; [done |].
    assert (In b (List.filter P l)) as Hb by (rewrite Hf; by left).
    apply filter_In in Hb as [Hb HPb]. apply list_elem_of_In in Hb.
    assert (a = b) as ->; [| done].
    apply Huniq; [left | by right | done | done].
  - apply IH; [done |]. intros r1 r2 H1 H2. apply Huniq; by right.
Qed.

Lemma growing_for_spec st button_id0 r :
  growing_for st button_id0 r = true ->
  exists n, note_objects st !! r = Some n /\ is_growing n = true
            /\ button_id n = button_id0.
Proof.
  unfold growing_for. destruct (note_objects st !! r) as [n |]; [| done].
  intros [Hg Ho%String.eqb_eq]%andb_true_iff. by exists n.
Qed.

(** C9: in every state of a run (built from presses, releases, updates
    of the notes with their purge, emergency cleanups, and the other
    operations of [step]), each id owns at most one note of [self.notes]
    that is still growing. *)
Theorem at_most_one_growing_note st button_id0 :
  reachable st -> (growing_count st button_id0 <= 1)%nat.
Proof.
  intros [Hnd Hal Hgr]%reachable_note_inv. unfold growing_count.
  apply filter_at_most_one; [done |].
  intros r1 r2 H1 H2 (n1 & Hn1 & Hg1 & Ho1)%growing_for_spec
    (n2 & Hn2 & Hg2 & Ho2)%growing_for_spec.
  destruct (Hgr r1 n1 H1 Hn1 Hg1) as [_ Ha1].
  destruct (Hgr r2 n2 H2 Hn2 Hg2) as [_ Ha2].
  congruence.
Qed.

Lemma reachable_released_once : reachable released_once.
Proof.
  eapply reachable_step; [eapply reachable_step; [apply reachable_init |] |].
  - eapply (step_press "1"). vm_compute. reflexivity.
  - eapply (step_release "1"). vm_compute. reflexivity.
Qed.

Lemma at_most_one_growing_note_witness :
  (growing_count pressed_again "1" <= 1)%nat.
Proof.
  apply at_most_one_growing_note.
  eapply reachable_step; [apply reachable_released_once |].
  eapply (step_press "1"). vm_compute. reflexivity.
Defined.

(** ** Presses and the notes of [self.notes] *)

(** C4, as stated, fails for a note in the Releasing phase: after a press
    and a release of ['1'] its note is in [self.notes], released, and a
    second press of ['1'] appends a new note. *)
Lemma press_beside_releasing_note :
  reachable released_once
  /\ (exists n, 0%nat ∈ notes released_once
                /\ note_objects released_once !! 0%nat = Some n
                /\ button_id n = "1" /\ is_growing n = false)
  /\ exists st',
       on_button_press "1" released_once = Done st'
       /\ notes released_once = [0%nat] /\ notes st' = [0%nat; 1%nat].
Proof.
  split; [apply reachable_released_once |]. split.
  - eexists. split; [vm_compute; apply list_elem_of_here |].
    split; [vm_compute; reflexivity |]. split; reflexivity.
  - eexists. split; [vm_compute; reflexivity |].
    split; vm_compute; reflexivity.
Qed.

(** C4, amended: in a state of a run, a press that arrives while a
    growing note of that id is in [self.notes] changes nothing, and so
    creates no note; a press of an id of [BUTTON_ORDER] that is not marked
    pressed appends one new growing note of that id, whatever released
    notes of the id are still in [self.notes]. *)
Theorem press_and_notes st button_id0 :
  reachable st ->
  global_input_lock st = false ->
  exists st',
    on_button_press button_id0 st = Done st'
    /\ ((exists r, r ∈ notes st /\ growing_for st button_id0 r = true) ->
        st' = st)
    /\ (already_pressed st button_id0 = false ->
        button_id0 ∈ BUTTON_ORDER ->
        exists n,
          notes st' = (notes st ++ [length (note_objects st)])%list
          /\ note_objects st' = (note_objects st ++ [n])%list
          /\ button_id n = button_id0 /\ is_growing n = true).
Proof.
  intros [Hnd Hal Hgr]%reachable_note_inv Hfree.
  rewrite on_button_press_free by done. eexists. split; [reflexivity |].
  split.
  - intros (r & Hr & (n & Hn & Hg & <-)%growing_for_spec).
    destruct (Hgr r n Hr Hn Hg) as [-> _]. done.
  - intros -> [lane Hlane]%list_index_Some.
    unfold press_update, create_ddr_note. rewrite Hlane. cbv zeta. fields.
    eexists. repeat split.
Qed.

Lemma press_and_notes_witness :
  exists st',
    on_button_press "1" released_once = Done st'
    /\ exists n,
         notes st' = (notes released_once ++ [1%nat])%list
         /\ note_objects st' = (note_objects released_once ++ [n])%list
         /\ button_id n = "1" /\ is_growing n = true.
Proof.
  destruct (press_and_notes released_once "1") as (st' & Hst' & _ & Hnew).
  - apply reachable_released_once.
  - reflexivity.
  - exists st'. split; [exact Hst' |].
    apply Hnew; [reflexivity |].
    apply (bool_decide_unpack _). vm_compute. exact I.
Defined.

(** ** The periodic check *)

(** C1 fails on the code.  ['1'] is marked pressed, the raw button 0
    that maps to it reads not pressed, and the periodic check, run after
    2.5 seconds, returns the state as it was, with ['1'] still pressed:
    the search of the raw index raises [TypeError]
    ([self.get_button_mapping()] lacks its argument) and the [except]
    clause does nothing, [stuck_buttons] being empty. *)
Theorem periodic_check_releases_nothing :
  get_button_mapping GENERIC 0 = Some "1"
  /\ get_button idle_pad 0 = Some false
  /\ already_pressed stuck_state "1" = true
  /\ find_pygame_button GENERIC "1" = inl TypeError
  /\ periodic_validation 0 2.5 stuck_state = (0%float, Done stuck_state).
Proof.
  do 4 (split; [reflexivity |]).
  unfold periodic_validation.
  replace (validation_interval <=? 0 + 2.5)%float with true by reflexivity.
  by rewrite validate_button_states_noop.
Qed.

(** The search of the raw index raises [TypeError], whatever the family
    and the id. *)
Lemma find_pygame_button_raises ct button_id :
  find_pygame_button ct button_id = inl TypeError.
Proof. reflexivity. Qed.

(** The first loop raises only [TypeError], and only when an id is
    marked pressed. *)
Lemma validate_scan_raises ct gamepad items : forall stuck_buttons e,
  (validate_scan ct gamepad items stuck_buttons).2 = Some e ->
  e = TypeError /\ exists button_id, (button_id, true) ∈ items.
Proof.
  induction items as [| [button_id0 pressed] items IH]; intros stuck e H;
    [done |].
  destruct pressed.
  - cbn [validate_scan] in H. rewrite find_pygame_button_raises in H.
    injection H as <-. split; [done |]. exists button_id0. left.
  - destruct (IH stuck e H) as [-> [b Hb]]. split; [done |].
    exists b. by right.
Qed.

(** C5 fails on the code.  Whenever the block under the lock of
    [validate_button_states] raises, the exception is the [TypeError] of
    [self.get_button_mapping()], called without its argument for the
    first id that is marked pressed; [stuck_buttons] is still empty, so
    the [except] clause, guarded by [if stuck_buttons:], does not call
    [emergency_cleanup]: the check returns the state as it was, with
    that id still pressed, where the reset would have cleared
    [self.button_states]. *)
Theorem validate_error_never_resets st gamepad e st1 :
  active_controller st = Some gamepad ->
  get_init gamepad = true ->
  global_input_lock st = false ->
  (validate_check gamepad (set_global_input_lock true st)).2
  = Raised e st1 ->
  e = TypeError
  /\ (validate_check gamepad (set_global_input_lock true st)).1 = []
  /\ validate_button_states st = Done st
  /\ (exists button_id, button_states st !! button_id = Some true)
  /\ exists st',
       emergency_cleanup st = Done st' /\ button_states st' = ∅
       /\ st' <> st.
Proof.
  intros Hc Hinit Hfree Hraise.
  assert (e = TypeError
          /\ (validate_check gamepad (set_global_input_lock true st)).1 = []
          /\ exists button_id, button_states st !! button_id = Some true)
    as (He & Hstuck & b & Hb).
  { revert Hraise. unfold validate_check.
    pose proof (validate_scan_stuck
                  (controller_type (set_global_input_lock true st)) gamepad
                  (map_to_list (button_states (set_global_input_lock true st)))
                  []) as Hnil.
    pose proof (validate_scan_raises
                  (controller_type (set_global_input_lock true st)) gamepad
                  (map_to_list (button_states (set_global_input_lock true st)))
                  []) as Hscan.
    destruct (validate_scan _ _ _ _) as [stuck err].
    cbn [fst snd] in Hnil, Hscan. subst stuck.
    destruct err as [e' |]; cbn [fst snd for_each]; [| done].
    intros [= -> _]. destruct (Hscan e eq_refl) as [-> [b Hb]].
    split; [done |]. split; [done |]. exists b.
    by apply elem_of_map_to_list in Hb. }
  split; [done |]. split; [done |].
  split; [by apply validate_button_states_noop |].
  split; [by exists b |].
  destruct (emergency_cleanup_free st Hfree) as (st' & Hclean & Hempty & _).
  exists st'. split; [done |]. split; [done |].
  intros ->. by rewrite Hempty, lookup_empty in Hb.
Qed.

(** ['1'] is marked pressed and the raw button 0 that maps to it reads
    not pressed: the check raises and returns the state as it was. *)
Lemma validate_error_never_resets_witness :
  (validate_check idle_pad (set_global_input_lock true stuck_state)).2
  = Raised TypeError (set_global_input_lock true stuck_state)
  /\ validate_button_states stuck_state = Done stuck_state
  /\ button_states stuck_state !! "1" = Some true.
Proof.
  assert ((validate_check idle_pad
             (set_global_input_lock true stuck_state)).2
          = Raised TypeError (set_global_input_lock true stuck_state))
    as Hraise by (vm_compute; reflexivity).
  destruct (validate_error_never_resets stuck_state idle_pad TypeError
              (set_global_input_lock true stuck_state)
              eq_refl eq_refl eq_refl Hraise)
    as (_ & _ & Hsame & _).
  split; [exact Hraise |]. split; [exact Hsame | reflexivity].
Defined.

(** ** Buttons and the hat *)

(** Every id of the table is a non-empty string, so [if button_id:]
    holds for a mapped index. *)
Lemma mapped_id_truthy ct i b :
  get_button_mapping ct i = Some b -> str_truthy b = true.
Proof.
  unfold get_button_mapping. revert i b.
  change (map_Forall (fun _ b => str_truthy b = true) (button_table ct)).
  destruct ct; apply (bool_decide_unpack _); vm_compute; exact I.
Qed.

Lemma set_last_global_button_states_id st :
  set_last_global_button_states (last_global_button_states st) st = st.
Proof. by destruct st. Qed.





Lemma hat_dict_lookup v :
  hat_dict v !!! "14" = (v.1 <? 0)%Z
  /\ hat_dict v !!! "15" = (0 <? v.1)%Z
  /\ hat_dict v !!! "12" = (0 <? v.2)%Z
  /\ hat_dict v !!! "13" = (v.2 <? 0)%Z.
Proof. destruct v as [hx hy]. repeat split; vm_compute; reflexivity. Qed.

(** The loop over the four d-pad ids when the hat moves from the centre
    to the left: one call, the press of ['14']. *)
Lemma hat_loop_left press release st :
  for_each ["14"; "15"; "12"; "13"]
    (hat_transition press release (hat_dict (-1, 0)%Z) (hat_dict (0, 0)%Z)) st
  = press "14" st.
Proof.
  unfold for_each, hat_transition.
  destruct (hat_dict_lookup (-1, 0)%Z) as (-> & -> & -> & ->).
  destruct (hat_dict_lookup (0, 0)%Z) as (-> & -> & -> & ->).
  simpl. by destruct (press "14" st).
Qed.

(** The same loop when the hat moves back from the left to the centre:
    one call, the release of ['14']. *)
Lemma hat_loop_centre press release st :
  for_each ["14"; "15"; "12"; "13"]
    (hat_transition press release (hat_dict (0, 0)%Z) (hat_dict (-1, 0)%Z)) st
  = release "14" st.
Proof.
  unfold for_each, hat_transition.
  destruct (hat_dict_lookup (-1, 0)%Z) as (-> & -> & -> & ->).
  destruct (hat_dict_lookup (0, 0)%Z) as (-> & -> & -> & ->).
  simpl. by destruct (release "14" st).
Qed.

Lemma press_update_frame b st :
  active_controller (press_update b st) = active_controller st
  /\ console (press_update b st) = (console st ++ [Pressed b])%list.
Proof.
  unfold press_update, create_ddr_note.
  by destruct (list_index b BUTTON_ORDER).
Qed.

Lemma release_update_frame b st :
  active_controller (release_update b st) = active_controller st
  /\ console (release_update b st) = (console st ++ [Released b])%list.
Proof.
  unfold release_update, end_ddr_note. simpl.
  by destruct (active_notes st !! b).
Qed.

Lemma set_last_hat_state_frame v st :
  global_input_lock (set_last_hat_state v st) = global_input_lock st
  /\ active_controller (set_last_hat_state v st) = active_controller st
  /\ console (set_last_hat_state v st) = console st
  /\ button_states (set_last_hat_state v st) = button_states st
  /\ last_hat_state (set_last_hat_state v st) = v.
Proof. done. Qed.

Lemma set_last_hat_event_time_frame t st :
  global_input_lock (set_last_hat_event_time t st) = global_input_lock st
  /\ active_controller (set_last_hat_event_time t st) = active_controller st
  /\ console (set_last_hat_event_time t st) = console st
  /\ button_states (set_last_hat_event_time t st) = button_states st
  /\ last_hat_state (set_last_hat_event_time t st) = last_hat_state st.
Proof. done. Qed.

(** The event for the hat vector (-1, 0) from the hat state (0, 0). *)
Lemma handle_hat_left st joy :
  global_input_lock st = false ->
  from_active_controller st joy = true ->
  last_hat_state st = (0, 0)%Z ->
  already_pressed st "14" = false ->
  exists st1,
    handle_event (JOYHATMOTION joy (-1, 0)%Z) st = Done st1
    /\ global_input_lock st1 = false
    /\ from_active_controller st1 joy = true
    /\ last_hat_state st1 = (-1, 0)%Z
    /\ already_pressed st1 "14" = true
    /\ console st1 = (console st ++ [Pressed "14"])%list.
Proof.
  intros Hfree Hjoy Hhat Hheld. unfold handle_event. cbv zeta.
  unfold from_active_controller, already_pressed in *.
  destruct (set_last_hat_event_time_frame (clock st) st)
    as (Hl0 & Hc0 & Hp0 & Hb0 & Hh0).
  rewrite Hc0, Hh0, Hjoy, Hhat, hat_loop_left.
  rewrite on_button_press_free by (by rewrite Hl0).
  unfold already_pressed. rewrite Hb0, Hheld. cbn [bind except_pass].
  eexists. split; [reflexivity |].
  destruct (set_last_hat_state_frame (-1, 0)%Z
              (press_update "14" (set_last_hat_event_time (clock st) st)))
    as (-> & -> & -> & -> & ->).
  destruct (press_update_frame "14" (set_last_hat_event_time (clock st) st))
    as [-> ->].
  rewrite press_update_free, Hl0, Hc0, Hp0.
  repeat split; try done.
  apply (already_pressed_press_update "14").
Qed.

(** The event for the hat vector (0, 0) from the hat state (-1, 0). *)
Lemma handle_hat_centre st joy :
  global_input_lock st = false ->
  from_active_controller st joy = true ->
  last_hat_state st = (-1, 0)%Z ->
  already_pressed st "14" = true ->
  exists st2,
    handle_event (JOYHATMOTION joy (0, 0)%Z) st = Done st2
    /\ last_hat_state st2 = (0, 0)%Z
    /\ console st2 = (console st ++ [Released "14"])%list.
Proof.
  intros Hfree Hjoy Hhat Hheld. unfold handle_event. cbv zeta.
  unfold from_active_controller, already_pressed in *.
  destruct (set_last_hat_event_time_frame (clock st) st)
    as (Hl0 & Hc0 & Hp0 & Hb0 & Hh0).
  rewrite Hc0, Hh0, Hjoy, Hhat, hat_loop_centre.
  rewrite on_button_release_free by (by rewrite Hl0).
  unfold already_pressed. rewrite Hb0, Hheld. cbn [bind except_pass].
  eexists. split; [reflexivity |].
  destruct (set_last_hat_state_frame (0, 0)%Z
              (release_update "14" (set_last_hat_event_time (clock st) st)))
    as (_ & _ & -> & _ & ->).
  destruct (release_update_frame "14"
              (set_last_hat_event_time (clock st) st)) as [_ ->].
  by rewrite Hp0.
Qed.

(** On the foreground path the hat vector (-1, 0) and then (0, 0), from
    the hat state (0, 0), prints the press of ['14'] and then its
    release, and nothing else. *)
Lemma foreground_hat_left_then_centre st joy :
  global_input_lock st = false ->
  from_active_controller st joy = true ->
  last_hat_state st = (0, 0)%Z ->
  already_pressed st "14" = false ->
  exists st',
    after [handle_event (JOYHATMOTION joy (-1, 0)%Z);
           handle_event (JOYHATMOTION joy (0, 0)%Z)] st = Done st'
    /\ console st' = (console st ++ [Pressed "14"; Released "14"])%list
    /\ last_hat_state st' = (0, 0)%Z.
Proof.
  intros Hfree Hjoy Hhat Hheld.
  destruct (handle_hat_left st joy Hfree Hjoy Hhat Hheld)
    as (st1 & H1 & Hfree1 & Hjoy1 & Hhat1 & Hheld1 & Hcons1).
  destruct (handle_hat_centre st1 joy Hfree1 Hjoy1 Hhat1 Hheld1)
    as (st2 & H2 & Hhat2 & Hcons2).
  exists st2. unfold after, for_each. rewrite H1. cbn [bind].
  rewrite H2. cbn [bind]. split; [done |]. split; [| done].
  by rewrite Hcons2, Hcons1, <- app_assoc.
Qed.

(** On the background path the first emission of a poll of the hat
    blocks: [check_global_hat] calls the emission function inside
    [with self.global_input_lock], and the emission function takes the
    same lock. *)
Lemma check_global_hat_left_blocks st c rest :
  active_controller st = Some c ->
  get_init c = true ->
  hats c = (-1, 0)%Z :: rest ->
  last_hat_state st = (0, 0)%Z ->
  check_global_hat st = Blocked.
Proof.
  intros Hc Hinit Hhats Hhat. unfold check_global_hat.
  rewrite Hc, Hinit, Hhats, Hhat. cbv zeta. cbn [negb].
  rewrite hat_loop_left, locked_blocks by auto. reflexivity.
Qed.

(** C7 fails on the background path.  From the hat state (0, 0), the
    events for the hat vector (-1, 0) and then (0, 0) make the
    foreground path print the press of ['14'] and then its release, and
    nothing for ['15'], ['12'] or ['13']; the poll of the background path
    that reads the hat vector (-1, 0) never returns and emits nothing. *)
Theorem hat_left_then_centre :
  (exists st',
     after [handle_event (JOYHATMOTION 0 (-1, 0)%Z);
            handle_event (JOYHATMOTION 0 (0, 0)%Z)]
       (initial_state 0 (Some idle_pad) GENERIC false) = Done st'
     /\ console st' = [Pressed "14"; Released "14"])
  /\ last_hat_state unfocused_hat_left = (0, 0)%Z
  /\ global_input_lock unfocused_hat_left = false
  /\ check_global_hat unfocused_hat_left = Blocked.
Proof.
  split.
  - destruct (foreground_hat_left_then_centre
                (initial_state 0 (Some idle_pad) GENERIC false) 0%Z)
      as (st' & Hst' & Hc & _); try reflexivity.
    exists st'. split; [exact Hst' | exact Hc].
  - do 2 (split; [reflexivity |]).
    by eapply check_global_hat_left_blocks.
Qed.

(** * More properties *)

(** ** What the emission functions change *)

Lemma same_rest_refl st : same_rest st st.
Proof. by split. Qed.

Lemma same_rest_trans st1 st2 st3 :
  same_rest st1 st2 -> same_rest st2 st3 -> same_rest st1 st3.
Proof. intros [] []. split; congruence. Qed.

Lemma same_core_refl st : same_core st st.
Proof. by split. Qed.

Lemma same_core_trans st1 st2 st3 :
  same_core st1 st2 -> same_core st2 st3 -> same_core st1 st3.
Proof. intros [] []. split; congruence. Qed.

Lemma press_update_rest b st : same_rest st (press_update b st).
Proof.
  unfold press_update, create_ddr_note.
  destruct (list_index b BUTTON_ORDER); by split.
Qed.

Lemma release_update_rest b st : same_rest st (release_update b st).
Proof.
  unfold release_update, end_ddr_note. fields.
  destruct (active_notes st !! b); by split.
Qed.

Lemma press_update_core b st :
  button_states (press_update b st) = <[b := true]> (button_states st)
  /\ button_press_count (press_update b st)
     = <[b := (default 0 (button_press_count st !! b) + 1)%Z]>
         (button_press_count st)
  /\ total_presses (press_update b st) = (total_presses st + 1)%Z
  /\ console (press_update b st) = (console st ++ [Pressed b])%list.
Proof.
  unfold press_update, create_ddr_note.
  by destruct (list_index b BUTTON_ORDER).
Qed.

Lemma press_update_notes b st :
  match list_index b BUTTON_ORDER with
  | Some lane =>
      exists n,
        notes (press_update b st)
        = (notes st ++ [length (note_objects st)])%list
        /\ note_objects (press_update b st) = (note_objects st ++ [n])%list
        /\ active_notes (press_update b st)
           = <[b := length (note_objects st)]> (active_notes st)
        /\ button_id n = b /\ is_growing n = true
        /\ start_time n = clock st /\ end_time n = None
  | None =>
      notes (press_update b st) = notes st
      /\ note_objects (press_update b st) = note_objects st
      /\ active_notes (press_update b st) = active_notes st
  end.
Proof.
  unfold press_update, create_ddr_note.
  destruct (list_index b BUTTON_ORDER) as [lane |]; cbv zeta; fields.
  - eexists. repeat split; reflexivity.
  - done.
Qed.

Lemma release_update_core b st :
  button_states (release_update b st) = <[b := false]> (button_states st)
  /\ button_press_count (release_update b st) = button_press_count st
  /\ total_presses (release_update b st) = total_presses st
  /\ console (release_update b st) = (console st ++ [Released b])%list
  /\ notes (release_update b st) = notes st
  /\ active_notes (release_update b st) = delete b (active_notes st)
  /\ note_objects (release_update b st)
     = match active_notes st !! b with
       | Some r => alter (end_note (clock st)) r (note_objects st)
       | None => note_objects st
       end.
Proof.
  unfold release_update, end_ddr_note. fields.
  destruct (active_notes st !! b) eqn:E; fields; repeat split; try done.
  symmetry. by apply delete_id.
Qed.


(** ** The counters *)

Lemma sum_counts_insert (m : gmap string Z) k v :
  sum_counts (<[k := v]> m)
  = (sum_counts m - default 0 (m !! k) + v)%Z.
Proof.
  unfold sum_counts. destruct (m !! k) as [old |] eqn:E; simpl.
  - rewrite <- insert_delete_eq.
    rewrite (map_fold_delete_L _ _ k old m); [| intros; lia | done].
    rewrite map_fold_insert_L; [lia | intros; lia |].
    apply lookup_delete_eq.
  - rewrite map_fold_insert_L; [lia | intros; lia | done].
Qed.

Lemma pressed_lines_app l e :
  pressed_lines (l ++ [e])
  = (pressed_lines l + if is_Pressed e then 1 else 0)%Z.
Proof.
  unfold pressed_lines. rewrite List.filter_app, length_app. simpl.
  destruct (is_Pressed e); simpl; lia.
Qed.

(** ** What [update_ddr_notes] changes *)

(** An update changes the top edge and the height of a note, and nothing
    else of it. *)
Lemma update_note_fields now n :
  let n' := (update_note now n).1 in
  x n' = x n /\ width n' = width n /\ color n' = color n
  /\ button_id n' = button_id n /\ start_time n' = start_time n
  /\ end_time n' = end_time n /\ is_growing n' = is_growing n
  /\ initial_bottom n' = initial_bottom n.
Proof.
  cbv zeta. unfold update_note.
  destruct (is_growing n) eqn:E; simpl; [by rewrite E |].
  destruct (end_time n) as [e |] eqn:E2; [| by rewrite E, E2].
  destruct (float_truthy e); simpl; by rewrite ?E, ?E2.
Qed.

Lemma update_note_flag now n :
  (update_note now n).2 = true -> is_growing n = false.
Proof. unfold update_note. by destruct (is_growing n). Qed.

(** A reference that the first loop puts on [notes_to_remove] is that of
    a note that is not growing. *)
Lemma update_loop_flagged now l : forall objs rm r,
  r ∈ (update_loop now l objs rm).2 ->
  r ∈ rm \/ exists n, objs !! r = Some n /\ is_growing n = false.
Proof.
  induction l as [| r' l IH]; intros objs rm r Hr; simpl in Hr; [by left |].
  destruct (objs !! r') as [n0 |] eqn:Hr'; [| by apply IH].
  destruct (update_note now n0) as [n0' off] eqn:Hu.
  apply IH in Hr as [Hr | (n & Hn & Hg)].
  - destruct off; [| by left].
    apply elem_of_app in Hr as [Hr | ->%list_elem_of_singleton]; [by left |].
    right. exists n0. split; [done |].
    apply (update_note_flag now). by rewrite Hu.
  - right. destruct (decide (r = r')) as [-> | Hne].
    + rewrite list_lookup_insert_eq in Hn by (by eapply lookup_lt_Some).
      injection Hn as <-. exists n0. split; [done |].
      destruct (update_note_owner now n0) as [Hg' _].
      rewrite Hu in Hg'. simpl in Hg'. congruence.
    + rewrite list_lookup_insert_ne in Hn by done. by exists n.
Qed.

Lemma note_eqb_growing a b :
  note_eqb a b = true -> is_growing a = is_growing b.
Proof.
  unfold note_eqb. rewrite !andb_true_iff.
  intros [[_ Hg] _]. by apply Bool.eqb_prop.
Qed.

Lemma remove_note_keeps objs r rm l :
  r ∈ l -> same_note objs r rm = false -> r ∈ remove_note objs rm l.
Proof.
  induction l as [| r' l IH]; intros Hr Hdiff; simpl; [done |].
  destruct (same_note objs r' rm) eqn:E.
  - apply elem_of_cons in Hr as [-> | Hr]; [congruence | done].
  - apply elem_of_cons in Hr as [-> | Hr]; [left | right; by apply IH].
Qed.

Lemma same_note_growing objs r rm n m :
  objs !! r = Some n -> objs !! rm = Some m ->
  is_growing n = true -> is_growing m = false ->
  same_note objs r rm = false.
Proof.
  intros Hn Hm Hg Hng. unfold same_note. rewrite Hn, Hm.
  apply orb_false_iff. split.
  - apply Nat.eqb_neq. intros ->. congruence.
  - destruct (note_eqb n m) eqn:E; [| done].
    apply note_eqb_growing in E. congruence.
Qed.

Lemma purge_keeps objs r n rm : forall l,
  objs !! r = Some n -> is_growing n = true ->
  (forall q, q ∈ rm -> exists m, objs !! q = Some m /\ is_growing m = false) ->
  r ∈ l -> r ∈ foldl (fun l q => remove_note objs q l) l rm.
Proof.
  induction rm as [| q rm IH]; intros l Hn Hg Hrm Hr; simpl; [done |].
  apply IH; [done | done | |].
  - intros q' Hq'. apply Hrm. by right.
  - destruct (Hrm q) as (m & Hm & Hng); [by left |].
    apply remove_note_keeps; [done |]. by eapply same_note_growing.
Qed.

(** A growing note is never purged. *)
Lemma update_ddr_notes_keeps_growing st r n :
  r ∈ notes st -> note_objects st !! r = Some n -> is_growing n = true ->
  r ∈ notes (update_ddr_notes st).
Proof.
  intros Hr Hn Hg.
  pose proof (update_loop_flagged (clock st) (notes st) (note_objects st) [])
    as Hflag.
  pose proof (update_loop_lookup (clock st) (notes st)) as Hlook.
  unfold update_ddr_notes.
  destruct (update_loop (clock st) (notes st) (note_objects st) [])
    as [objs rm] eqn:E.
  fields. simpl in Hflag.
  eapply purge_keeps; [| | | done].
  - specialize (Hlook (note_objects st) [] r n Hn). rewrite E in Hlook.
    exact Hlook.
  - rewrite bool_decide_eq_true_2 by done.
    by destruct (update_note_owner (clock st) n) as [-> _].
  - intros q Hq. destruct (Hflag q Hq) as [[]%elem_of_nil | (m & Hm & Hng)].
    specialize (Hlook (note_objects st) [] q m Hm). rewrite E in Hlook.
    simpl in Hlook. eexists. split; [exact Hlook |].
    destruct (update_note_owner (clock st) m) as [Hg' _].
    by case_bool_decide; [rewrite Hg' |].
Qed.

Lemma update_ddr_notes_frame st :
  same_rest st (update_ddr_notes st)
  /\ button_states (update_ddr_notes st) = button_states st
  /\ active_notes (update_ddr_notes st) = active_notes st
  /\ button_press_count (update_ddr_notes st) = button_press_count st
  /\ total_presses (update_ddr_notes st) = total_presses st
  /\ console (update_ddr_notes st) = console st.
Proof.
  unfold update_ddr_notes.
  destruct (update_loop (clock st) (notes st) (note_objects st) []).
  repeat split.
Qed.


(** ** The invariant of a run *)

Lemma run_inv_initial t0 c ct hat_only :
  run_inv (initial_state t0 c ct hat_only).
Proof.
  split.
  - reflexivity.
  - apply note_inv_initial.
  - intros b r. simpl. by rewrite lookup_empty.
  - intros b. unfold already_pressed. simpl. by rewrite lookup_empty.
  - vm_compute. reflexivity.
  - reflexivity.
Qed.

Lemma run_inv_rest st st' :
  same_core st st' -> global_input_lock st' = false ->
  run_inv st -> run_inv st'.
Proof.
  intros [Hb Ho Hn Ha Hc Ht Hl] Hlock [_ Hni Hact Hpr Htot Hlin].
  split; unfold already_pressed in *.
  - done.
  - by eapply note_inv_same.
  - intros b r. rewrite Ha, Hn, Hb, Ho. apply Hact.
  - intros b. rewrite Hb, Ha. apply Hpr.
  - by rewrite Ht, Hc.
  - by rewrite Ht, Hl.
Qed.

Lemma run_inv_press b st :
  run_inv st -> already_pressed st b = false ->
  run_inv (press_update b st).
Proof.
  intros [Hlock Hni Hact Hpr Htot Hlin] Hheld.
  destruct (press_update_core b st) as (Hb & Hc & Ht & Hl).
  pose proof (press_update_notes b st) as Hnotes.
  split.
  - by rewrite (rest_global_input_lock _ _ (press_update_rest b st)).
  - by apply note_inv_press_update.
  - intros b' r Hr. unfold already_pressed in *. rewrite Hb.
    destruct (list_index b BUTTON_ORDER) as [lane |].
    + destruct Hnotes as (n & Hn & Ho & Ha & Hown & Hg & _).
      rewrite Hn, Ho. rewrite Ha in Hr.
      destruct (decide (b = b')) as [<- | Hne].
      * rewrite lookup_insert_eq in Hr. injection Hr as <-.
        rewrite lookup_insert_eq.
        split; [apply elem_of_app; right; apply list_elem_of_here |].
        split; [done |].
        exists n. by rewrite list_lookup_middle.
      * rewrite lookup_insert_ne in Hr by done.
        rewrite lookup_insert_ne by done.
        destruct (Hact b' r Hr) as (Hin & Hp & n0 & Hn0 & Hg0 & Ho0).
        split; [apply elem_of_app; by left |]. split; [done |].
        exists n0. by rewrite (lookup_app_l_Some _ _ _ _ Hn0).
    + destruct Hnotes as (Hn & Ho & Ha). rewrite Hn, Ho. rewrite Ha in Hr.
      destruct (Hact b' r Hr) as (Hin & Hp & Hex).
      split; [done |]. split; [| done].
      destruct (decide (b = b')) as [<- | Hne].
      * by rewrite lookup_insert_eq.
      * by rewrite lookup_insert_ne.
  - intros b' Hp Hin. unfold already_pressed in *. rewrite Hb in Hp.
    destruct (decide (b = b')) as [<- | Hne].
    + destruct (list_index_Some _ _ Hin) as [lane Hlane].
      rewrite Hlane in Hnotes.
      destruct Hnotes as (m & _ & _ & Ha & _).
      rewrite Ha, lookup_insert_eq. by eexists.
    + rewrite lookup_insert_ne in Hp by done.
      assert (active_notes (press_update b st) !! b' = active_notes st !! b')
        as Heq; [| rewrite Heq; by apply Hpr].
      destruct (list_index b BUTTON_ORDER).
      * destruct Hnotes as (m & _ & _ & Ha & _).
        by rewrite Ha, lookup_insert_ne.
      * destruct Hnotes as (_ & _ & Ha). by rewrite Ha.
  - rewrite Ht, Hc, sum_counts_insert. lia.
  - rewrite Ht, Hl, pressed_lines_app. simpl. lia.
Qed.

Lemma run_inv_release b st :
  run_inv st -> run_inv (release_update b st).
Proof.
  intros [Hlock Hni Hact Hpr Htot Hlin].
  destruct (release_update_core b st) as (Hb & Hc & Ht & Hl & Hn & Ha & Ho).
  split.
  - by rewrite (rest_global_input_lock _ _ (release_update_rest b st)).
  - by apply note_inv_release_update.
  - intros b' r Hr. unfold already_pressed in *. rewrite Hb, Hn.
    rewrite Ha in Hr. apply lookup_delete_Some in Hr as [Hne Hr].
    destruct (Hact b' r Hr) as (Hin & Hp & n0 & Hn0 & Hg0 & Ho0).
    split; [done |]. split; [by rewrite lookup_insert_ne |].
    exists n0. rewrite Ho. split; [| done].
    destruct (active_notes st !! b) as [r0 |] eqn:Hr0; [| done].
    rewrite list_lookup_alter_ne; [done |]. intros ->.
    destruct (Hact b r Hr0) as (_ & _ & n1 & Hn1 & _ & Ho1). congruence.
  - intros b' Hp Hin. unfold already_pressed in *. rewrite Hb in Hp.
    destruct (decide (b = b')) as [<- | Hne].
    + by rewrite lookup_insert_eq in Hp.
    + rewrite lookup_insert_ne in Hp by done.
      rewrite Ha, lookup_delete_ne by done. by apply Hpr.
  - by rewrite Ht, Hc.
  - rewrite Ht, Hl, pressed_lines_app. simpl. lia.
Qed.

Lemma run_inv_update st : run_inv st -> run_inv (update_ddr_notes st).
Proof.
  intros [Hlock Hni Hact Hpr Htot Hlin].
  destruct (update_ddr_notes_frame st) as (Hrest & Hb & Ha & Hc & Ht & Hl).
  split.
  - by rewrite (rest_global_input_lock _ _ Hrest).
  - by apply note_inv_update.
  - intros b r Hr. unfold already_pressed in *. rewrite Hb.
    rewrite Ha in Hr.
    destruct (Hact b r Hr) as (Hin & Hp & n & Hn & Hg & Ho).
    split; [by eapply update_ddr_notes_keeps_growing |]. split; [done |].
    exists (update_note (clock st) n).1.
    rewrite update_ddr_notes_objects, (update_loop_lookup _ _ _ _ r n Hn).
    rewrite bool_decide_eq_true_2 by done.
    destruct (update_note_owner (clock st) n) as [-> ->]. done.
  - intros b. unfold already_pressed in *. rewrite Hb, Ha. apply Hpr.
  - by rewrite Ht, Hc.
  - by rewrite Ht, Hl.
Qed.

(** What [emergency_cleanup] clears and what it keeps. *)
Lemma emergency_cleanup_result st :
  global_input_lock st = false ->
  exists st',
    emergency_cleanup st = Done st'
    /\ global_input_lock st' = false
    /\ button_states st' = ∅ /\ notes st' = [] /\ active_notes st' = ∅
    /\ last_axis_states st' = ∅ /\ last_global_button_states st' = ∅
    /\ last_hat_state st' = (0, 0)%Z
    /\ button_press_count st' = button_press_count st
    /\ total_presses st' = total_presses st
    /\ console st' = console st
    /\ active_controller st' = active_controller st
    /\ controller_type st' = controller_type st
    /\ nintendo_hat_only st' = nintendo_hat_only st.
Proof.
  intros Hfree. unfold emergency_cleanup, with_lock. rewrite Hfree.
  cbn [active_notes set_notes set_active_notes].
  rewrite map_to_list_empty. simpl. eexists. split; [reflexivity |].
  simpl. repeat split.
Qed.

Lemma run_inv_cleanup st st' :
  run_inv st -> emergency_cleanup st = Done st' -> run_inv st'.
Proof.
  intros [Hlock Hni Hact Hpr Htot Hlin] Hdone.
  destruct (emergency_cleanup_result st Hlock)
    as (st2 & H2 & Hl & Hb & Hn & Ha & _ & _ & _ & Hc & Ht & Hcons & _).
  assert (st' = st2) as -> by congruence.
  split.
  - done.
  - split; rewrite Hn; [constructor | by intros r ?%elem_of_nil
                                     | by intros r n ?%elem_of_nil].
  - intros b r. by rewrite Ha, lookup_empty.
  - intros b. unfold already_pressed. by rewrite Hb, lookup_empty.
  - by rewrite Ht, Hc.
  - by rewrite Ht, Hcons.
Qed.


(** Closes [run_inv] of a state got from that of [H] by assignments to
    fields that the invariant does not read. *)
Ltac untouched H := refine (run_inv_rest _ _ _ _ H); [by split | apply H].

Lemma run_ok_bind o k :
  run_ok o -> (forall st, run_inv st -> run_ok (k st)) -> run_ok (bind o k).
Proof. intros Ho Hk. destruct o; simpl in *; auto. Qed.

Lemma keeps_for_each {A} (l : list A) body :
  (forall v, keeps (body v)) -> keeps (for_each l body).
Proof.
  intros Hbody. induction l as [| v l IH]; intros st Hst; simpl; [done |].
  apply run_ok_bind; [by apply Hbody | done].
Qed.

Lemma run_ok_except_pass caught o : run_ok o -> run_ok (except_pass caught o).
Proof. destruct o; simpl; [done | | done]. by destruct (caught e). Qed.

Lemma keeps_on_button_press b : keeps (on_button_press b).
Proof.
  intros st Hst. rewrite on_button_press_free by apply Hst.
  destruct (already_pressed st b) eqn:E; simpl; [done |].
  by apply run_inv_press.
Qed.

Lemma keeps_on_button_release b : keeps (on_button_release b).
Proof.
  intros st Hst. rewrite on_button_release_free by apply Hst.
  destruct (already_pressed st b); simpl; [| done].
  by apply run_inv_release.
Qed.

Lemma keeps_locked_press b : keeps (locked on_button_press b).
Proof. intros st _. rewrite locked_blocks by auto. done. Qed.

Lemma keeps_locked_release b : keeps (locked on_button_release b).
Proof. intros st _. rewrite locked_blocks by auto. done. Qed.

Lemma keeps_emit_mapped emit i :
  (forall b, keeps (emit b)) -> keeps (emit_mapped emit i).
Proof.
  intros Hemit st Hst. unfold emit_mapped.
  destruct (get_button_mapping (controller_type st) i) as [b |]; [| done].
  destruct (str_truthy b); [by apply Hemit | done].
Qed.

Lemma keeps_hat_transition press release desired previous bid :
  (forall b, keeps (press b)) -> (forall b, keeps (release b)) ->
  keeps (hat_transition press release desired previous bid).
Proof.
  intros Hp Hr st Hst. unfold hat_transition. apply run_ok_bind.
  - destruct (_ && _); [by apply Hp | done].
  - intros st1 Hst1. destruct (_ && _); [by apply Hr | done].
Qed.

Lemma keeps_press_release press release flag_key pressed bid :
  keeps (press bid) -> keeps (release bid) ->
  keeps (press_release press release flag_key pressed bid).
Proof.
  intros Hp Hr st Hst. unfold press_release.
  destruct (negb _); [| done]. apply run_ok_bind.
  - destruct pressed; [by apply Hp | by apply Hr].
  - intros st1 Hst1. simpl.
    untouched Hst1.
Qed.

Lemma keeps_stick_loop press release x_axis y_axis :
  (forall b, keeps (press b)) -> (forall b, keeps (release b)) ->
  keeps (stick_loop press release x_axis y_axis).
Proof.
  intros Hp Hr. apply keeps_for_each. intros d.
  by apply keeps_press_release.
Qed.

Lemma keeps_handle_event event : keeps (handle_event event).
Proof.
  intros st Hst. destruct event as [joy button | joy button | joy value];
    unfold handle_event; cbv zeta; apply run_ok_except_pass.
  - destruct (from_active_controller st joy); [| done].
    apply keeps_emit_mapped; [apply keeps_on_button_press | done].
  - destruct (from_active_controller st joy); [| done].
    apply keeps_emit_mapped; [apply keeps_on_button_release | done].
  - assert (run_inv (set_last_hat_event_time (clock st) st)) as Hst1
      by (untouched Hst).
    destruct (from_active_controller _ joy); [| done].
    apply run_ok_bind.
    + apply keeps_for_each; [| done]. intros bid.
      apply keeps_hat_transition;
        [apply keeps_on_button_press | apply keeps_on_button_release].
    + intros st2 Hst2. simpl.
      untouched Hst2.
Qed.

Lemma keeps_poll_button suppress reading :
  keeps (poll_button suppress reading).
Proof.
  intros st Hst. destruct reading as [i pressed]. unfold poll_button.
  assert (forall st0, run_inv st0 ->
            run_inv (set_last_global_button_states
                       (<[i := pressed]> (last_global_button_states st0)) st0))
    as Hrem.
  { intros st0 H0. untouched H0. }
  destruct suppress; [by apply Hrem |].
  destruct (_ && bool_decide _); [by apply Hrem |].
  apply run_ok_bind.
  - destruct (_ && _); [| done].
    apply keeps_emit_mapped; [apply keeps_locked_press | done].
  - intros st1 Hst1. apply run_ok_bind.
    + destruct (_ && _); [| done].
      apply keeps_emit_mapped; [apply keeps_locked_release | done].
    + intros st2 Hst2. by apply Hrem.
Qed.

Lemma keeps_check_global_buttons : keeps check_global_buttons.
Proof.
  intros st Hst. unfold check_global_buttons. apply run_ok_except_pass.
  destruct (active_controller st) as [gamepad |]; [| done].
  destruct (get_init gamepad); cbn [negb]; [| done].
  destruct (display_active st); [done |]. cbv zeta.
  apply keeps_for_each; [| done]. intros v. apply keeps_poll_button.
Qed.

Lemma keeps_check_global_hat : keeps check_global_hat.
Proof.
  intros st Hst. unfold check_global_hat. apply run_ok_except_pass.
  destruct (active_controller st) as [c |]; [| done].
  destruct (get_init c); cbn [negb]; [| done].
  destruct (hats c) as [| [hx hy] ?]; [done |]. cbv zeta.
  apply run_ok_bind.
  - apply keeps_for_each; [| done]. intros bid.
    apply keeps_hat_transition;
      [apply keeps_locked_press | apply keeps_locked_release].
  - intros st2 Hst2. simpl.
    untouched Hst2.
Qed.

Lemma keeps_validate : keeps validate_button_states.
Proof.
  intros st Hst. rewrite validate_button_states_noop by apply Hst. done.
Qed.

Lemma keeps_handle_joystick_axes axes : keeps (handle_joystick_axes axes).
Proof.
  intros st Hst. unfold handle_joystick_axes.
  destruct (active_controller st) as [c |]; [| done].
  destruct (is_snes_switch _); [done |].
  destruct (get_init c); cbn [negb]; [| done].
  destruct axes as [| x_axis [| y_axis ?]]; [done | done |].
  apply keeps_stick_loop; [apply keeps_on_button_press
                          | apply keeps_on_button_release | done].
Qed.

Lemma keeps_handle_trigger_axes axes : keeps (handle_trigger_axes axes).
Proof.
  intros st Hst. unfold handle_trigger_axes. apply run_ok_except_pass.
  destruct (active_controller st) as [c |]; [| done].
  destruct (get_init c); cbn [negb]; [| done]. cbv zeta.
  destruct (length axes <=? 2)%nat; [done |].
  apply run_ok_bind.
  - destruct (5 <=? length axes)%nat; [| done].
    destruct (axes !! 4%nat); [| done].
    apply keeps_press_release; [apply keeps_on_button_press
                               | apply keeps_on_button_release | done].
  - intros st1 Hst1.
    destruct (6 <=? length axes)%nat; [| done].
    destruct (axes !! 5%nat); [| done].
    apply keeps_press_release; [apply keeps_on_button_press
                               | apply keeps_on_button_release | done].
Qed.

Lemma keeps_check_global_joystick_axes axes :
  keeps (check_global_joystick_axes axes).
Proof.
  intros st Hst. unfold check_global_joystick_axes.
  apply run_ok_except_pass.
  destruct (active_controller st) as [c |]; [| done].
  destruct (get_init c); cbn [negb]; [| done].
  destruct axes as [| x_axis [| y_axis ?]]; [done | done |].
  apply keeps_stick_loop; [apply keeps_locked_press
                          | apply keeps_locked_release | done].
Qed.

Lemma keeps_check_global_controller_input axes :
  keeps (check_global_controller_input axes).
Proof.
  intros st Hst. unfold check_global_controller_input.
  apply run_ok_except_pass.
  destruct (active_controller st) as [c |]; [| done].
  destruct (get_init c); cbn [negb]; [| done].
  destruct (display_active st); [done |].
  apply run_ok_bind; [by apply keeps_check_global_buttons |].
  intros st1 Hst1.
  apply run_ok_bind; [by apply keeps_check_global_hat |].
  intros st2 Hst2. apply run_ok_bind.
  - destruct (is_snes_switch _); [done |].
    by apply keeps_check_global_joystick_axes.
  - intros st3 Hst3. by apply keeps_handle_trigger_axes.
Qed.

Lemma step_run_inv st st' : step st st' -> run_inv st -> run_inv st'.
Proof.
  intros Hstep Hst. destruct Hstep as
    [b st st' H | b st st' H | st | st st' H | st st' H | ev st st' H
     | st st' H | st st' H | t st | b st | c st].
  - pose proof (keeps_on_button_press b st Hst) as Hp. by rewrite H in Hp.
  - pose proof (keeps_on_button_release b st Hst) as Hp. by rewrite H in Hp.
  - by apply run_inv_update.
  - by eapply run_inv_cleanup.
  - pose proof (keeps_validate st Hst) as Hp. by rewrite H in Hp.
  - pose proof (keeps_handle_event ev st Hst) as Hp. by rewrite H in Hp.
  - pose proof (keeps_check_global_buttons st Hst) as Hp. by rewrite H in Hp.
  - pose proof (keeps_check_global_hat st Hst) as Hp. by rewrite H in Hp.
  - untouched Hst.
  - untouched Hst.
  - untouched Hst.
Qed.

Lemma run_step_run_inv st st' : run_step st st' -> run_inv st -> run_inv st'.
Proof.
  intros Hstep Hst. destruct Hstep as
    [st st' H | axes st st' H | axes st st' H | axes st st' H
     | axes st st' H | timer dt timer' st st' H].
  - by eapply step_run_inv.
  - pose proof (keeps_handle_joystick_axes axes st Hst) as Hp.
    by rewrite H in Hp.
  - pose proof (keeps_handle_trigger_axes axes st Hst) as Hp.
    by rewrite H in Hp.
  - pose proof (keeps_check_global_controller_input axes st Hst) as Hp.
    by rewrite H in Hp.
  - pose proof (keeps_check_global_joystick_axes axes st Hst) as Hp.
    by rewrite H in Hp.
  - unfold periodic_validation in H.
    destruct (validation_interval <=? timer + dt)%float.
    + rewrite validate_button_states_noop in H by apply Hst. congruence.
    + congruence.
Qed.

Lemma in_run_inv st : in_run st -> run_inv st.
Proof.
  induction 1 as [| st st' _ IH Hstep]; [apply run_inv_initial |].
  by eapply run_step_run_inv.
Qed.


(** ** The foreground path and the lock *)

Lemma returns_for_each {A} (l : list A) body :
  (forall v, returns (body v)) -> returns (for_each l body).
Proof.
  intros Hbody. induction l as [| v l IH]; intros st Hst; cbn [for_each].
  - by exists st.
  - destruct (Hbody v st Hst) as (st1 & -> & Hst1). cbn [bind]. by apply IH.
Qed.

Lemma returns_on_button_press b : returns (on_button_press b).
Proof.
  intros st Hst. rewrite on_button_press_free by done.
  eexists. split; [reflexivity |].
  destruct (already_pressed st b); [done | by rewrite press_update_free].
Qed.

Lemma returns_on_button_release b : returns (on_button_release b).
Proof.
  intros st Hst. rewrite on_button_release_free by done.
  eexists. split; [reflexivity |].
  destruct (already_pressed st b); [by rewrite release_update_free | done].
Qed.

Lemma returns_emit_mapped emit i :
  (forall b, returns (emit b)) -> returns (emit_mapped emit i).
Proof.
  intros Hemit st Hst. unfold emit_mapped.
  destruct (get_button_mapping (controller_type st) i) as [b |];
    [| by exists st].
  destruct (str_truthy b); [by apply Hemit | by exists st].
Qed.

Lemma returns_hat_transition desired previous bid :
  returns (hat_transition on_button_press on_button_release
             desired previous bid).
Proof.
  intros st Hst. unfold hat_transition.
  assert (exists st1,
            (if (desired !!! bid) && negb (previous !!! bid)
             then on_button_press bid st else Done st) = Done st1
            /\ global_input_lock st1 = false) as (st1 & -> & Hst1).
  { destruct (_ && _); [by apply returns_on_button_press | by exists st]. }
  cbn [bind]. destruct (_ && _); [by apply returns_on_button_release |].
  by exists st1.
Qed.

Lemma returns_press_release flag_key pressed bid :
  returns (press_release on_button_press on_button_release
             flag_key pressed bid).
Proof.
  intros st Hst. unfold press_release.
  destruct (negb _); [| by exists st].
  assert (exists st1,
            (if pressed then on_button_press bid st
             else on_button_release bid st) = Done st1
            /\ global_input_lock st1 = false) as (st1 & -> & Hst1).
  { destruct pressed;
      [by apply returns_on_button_press | by apply returns_on_button_release]. }
  cbn [bind]. eexists. split; [reflexivity | done].
Qed.

Lemma returns_handle_event event : returns (handle_event event).
Proof.
  intros st Hst. destruct event as [joy button | joy button | joy value];
    unfold handle_event; cbv zeta.
  - destruct (from_active_controller st joy); [| by exists st].
    destruct (returns_emit_mapped on_button_press button
                returns_on_button_press st Hst) as (st1 & -> & Hst1).
    by exists st1.
  - destruct (from_active_controller st joy); [| by exists st].
    destruct (returns_emit_mapped on_button_release button
                returns_on_button_release st Hst) as (st1 & -> & Hst1).
    by exists st1.
  - assert (global_input_lock (set_last_hat_event_time (clock st) st) = false)
      as Hst0 by done.
    destruct (from_active_controller _ joy); [| by eexists].
    destruct (returns_for_each ["14"; "15"; "12"; "13"]
                (hat_transition on_button_press on_button_release
                   (hat_dict value)
                   (hat_dict (last_hat_state
                                (set_last_hat_event_time (clock st) st))))
                (fun bid => returns_hat_transition _ _ bid) _ Hst0)
      as (st1 & -> & Hst1).
    cbn [bind except_pass]. eexists. split; [reflexivity | done].
Qed.

Lemma returns_handle_joystick_axes axes : returns (handle_joystick_axes axes).
Proof.
  intros st Hst. unfold handle_joystick_axes.
  destruct (active_controller st) as [c |]; [| by exists st].
  destruct (is_snes_switch _); [by exists st |].
  destruct (get_init c); cbn [negb]; [| by exists st].
  destruct axes as [| x_axis [| y_axis ?]]; [by exists st | by exists st |].
  apply returns_for_each; [| done]. intros d. apply returns_press_release.
Qed.

Lemma returns_handle_trigger_axes axes : returns (handle_trigger_axes axes).
Proof.
  intros st Hst. unfold handle_trigger_axes.
  destruct (active_controller st) as [c |]; [| by exists st].
  destruct (get_init c); cbn [negb]; [| by exists st]. cbv zeta.
  destruct (length axes <=? 2)%nat; [by exists st |].
  assert (exists st1,
            except_pass any_exception
              (if (5 <=? length axes)%nat then
                 match axes !! 4%nat with
                 | Some l2 =>
                     press_release on_button_press on_button_release
                       "zl_axis" (0.5 <? l2)%float "6" st
                 | None => Raised PygameError st
                 end
               else Done st) = Done st1
            /\ global_input_lock st1 = false) as (st1 & H1 & Hst1).
  { destruct (5 <=? length axes)%nat; [| by exists st].
    destruct (axes !! 4%nat); [| by exists st].
    destruct (returns_press_release "zl_axis" (0.5 <? f)%float "6" st Hst)
      as (st1 & -> & Hst1). by exists st1. }
  destruct (if (5 <=? length axes)%nat then _ else _) as [s1 | e s1 |];
    cbn [except_pass any_exception] in H1; [| | done].
  2:{ injection H1 as ->. by exists st1. }
  injection H1 as ->. cbn [bind].
  destruct (6 <=? length axes)%nat; [| by exists st1].
  destruct (axes !! 5%nat); [| by exists st1].
  destruct (returns_press_release "zr_axis" (0.5 <? f)%float "7" st1 Hst1)
    as (st2 & -> & Hst2). by exists st2.
Qed.

Lemma returns_handle_axes axes : returns (handle_axes axes).
Proof.
  intros st Hst. unfold handle_axes.
  destruct (active_controller st); [| by exists st].
  destruct (returns_handle_joystick_axes axes st Hst) as (st1 & -> & Hst1).
  cbn [bind]. by apply returns_handle_trigger_axes.
Qed.

Lemma reachable_in_run st : reachable st -> in_run st.
Proof.
  induction 1 as [| st st' _ IH Hstep]; [apply in_run_init |].
  eapply in_run_step; [exact IH | by apply run_step_base].
Qed.

(** X1: whether a call of the foreground path returns is decided by the
    lock alone.  Called with the lock free, every joystick branch of
    [handle_events], the handling of the axes at its end and
    [emergency_cleanup] return, with the lock free again, and
    [validate_button_states] returns the state unchanged; no exception
    leaves them.  Called with the lock held, which is the state that the
    polling thread leaves for ever once it has blocked inside its own
    [with self.global_input_lock], a button event of the active
    controller whose index is mapped, [emergency_cleanup] and the check
    on an initialised controller block. *)
Theorem foreground_calls_and_the_lock st :
  (global_input_lock st = false ->
   (forall event,
      exists st', handle_event event st = Done st'
                  /\ global_input_lock st' = false)
   /\ (forall axes,
         exists st', handle_axes axes st = Done st'
                     /\ global_input_lock st' = false)
   /\ (exists st', emergency_cleanup st = Done st'
                   /\ global_input_lock st' = false)
   /\ validate_button_states st = Done st)
  /\ (global_input_lock st = true ->
      (forall joy i b,
         from_active_controller st joy = true ->
         get_button_mapping (controller_type st) i = Some b ->
         handle_event (JOYBUTTONDOWN joy i) st = Blocked
         /\ handle_event (JOYBUTTONUP joy i) st = Blocked)
      /\ emergency_cleanup st = Blocked
      /\ (forall c,
            active_controller st = Some c -> get_init c = true ->
            validate_button_states st = Blocked)).
Proof.
  split.
  - intros Hfree. split; [| split; [| split]].
    + intros event. by apply returns_handle_event.
    + intros axes. by apply returns_handle_axes.
    + destruct (emergency_cleanup_result st Hfree) as (st' & H & Hl & _).
      by exists st'.
    + by apply validate_button_states_noop.
  - intros Hheld. split; [| split].
    + intros joy i b Hjoy Hmap. unfold handle_event, emit_mapped.
      rewrite Hjoy, Hmap, (mapped_id_truthy _ _ _ Hmap).
      by rewrite on_button_press_held, on_button_release_held.
    + unfold emergency_cleanup, with_lock. by rewrite Hheld.
    + intros c Hc Hinit. unfold validate_button_states.
      by rewrite Hc, Hinit, Hheld.
Qed.

(** The button 0 of the active controller goes down.  With the lock free
    the press of ['1'] is printed and the lock is free again; with the
    lock held the same event blocks, and so does the cleanup. *)
Lemma foreground_calls_and_the_lock_witness :
  (exists st',
     handle_event (JOYBUTTONDOWN 0 0)
       (initial_state 0 (Some idle_pad) GENERIC false) = Done st'
     /\ global_input_lock st' = false
     /\ console st' = [Pressed "1"])
  /\ handle_event (JOYBUTTONDOWN 0 0)
       (set_global_input_lock true
          (initial_state 0 (Some idle_pad) GENERIC false)) = Blocked
  /\ emergency_cleanup
       (set_global_input_lock true
          (initial_state 0 (Some idle_pad) GENERIC false)) = Blocked.
Proof.
  split.
  - destruct (foreground_calls_and_the_lock
                (initial_state 0 (Some idle_pad) GENERIC false))
      as [Hfree _].
    destruct (Hfree eq_refl) as [Hev _].
    destruct (Hev (JOYBUTTONDOWN 0 0)) as (st' & H & Hl).
    exists st'. split; [exact H |]. split; [exact Hl |].
    assert (exists s,
              handle_event (JOYBUTTONDOWN 0 0)
                (initial_state 0 (Some idle_pad) GENERIC false) = Done s
              /\ console s = [Pressed "1"]) as (s & Hs & Hcons).
    { eexists. split; [vm_compute; reflexivity | reflexivity]. }
    rewrite Hs in H. injection H as <-. exact Hcons.
  - destruct (foreground_calls_and_the_lock
                (set_global_input_lock true
                   (initial_state 0 (Some idle_pad) GENERIC false)))
      as [_ Hheld].
    destruct (Hheld eq_refl) as (Hev & Hclean & _).
    split; [| exact Hclean].
    apply (Hev 0%Z 0%Z "1"); reflexivity.
Defined.

(** ** Pressed ids and growing notes *)

Lemma in_run_pressed_again : in_run pressed_again.
Proof.
  apply reachable_in_run.
  eapply reachable_step; [apply reachable_released_once |].
  eapply (step_press "1"). vm_compute. reflexivity.
Qed.

Lemma filter_nil_iff {A} (P : A -> bool) (l : list A) :
  (forall a, a ∈ l -> P a = false) -> List.filter P l = [].
Proof.
  induction l as [| a l IH]; intros H; simpl; [done |].
  rewrite (H a) by apply list_elem_of_here.
  apply IH. intros b Hb. apply H. by right.
Qed.

Lemma filter_nonempty {A} (P : A -> bool) (l : list A) a :
  a ∈ l -> P a = true -> (1 <= length (List.filter P l))%nat.
Proof.
  intros Ha HP. assert (In a (List.filter P l)) as Hin.
  { apply filter_In. split; [by apply list_elem_of_In | done]. }
  destruct (List.filter P l); [done | simpl; lia].
Qed.

(** X2: in every state of a run, an id of [BUTTON_ORDER] owns exactly one
    growing note of [self.notes] while it is marked pressed, and none
    while it is not. *)
Theorem growing_note_iff_pressed st b :
  in_run st -> b ∈ BUTTON_ORDER ->
  growing_count st b = if already_pressed st b then 1%nat else 0%nat.
Proof.
  intros [Hlock [Hnd Hal Hgr] Hact Hpr _ _]%in_run_inv Hb.
  unfold growing_count.
  destruct (already_pressed st b) eqn:Hheld.
  - destruct (Hpr b Hheld Hb) as [r Hr].
    destruct (Hact b r Hr) as (Hin & _ & n & Hn & Hg & Ho).
    assert (growing_for st b r = true) as Hgf.
    { unfold growing_for. rewrite Hn, Hg, Ho. simpl. apply String.eqb_refl. }
    pose proof (filter_nonempty _ _ _ Hin Hgf) as Hge.
    assert (length (List.filter (growing_for st b) (notes st)) <= 1)%nat
      as Hle; [| lia].
    apply filter_at_most_one; [done |].
    intros r1 r2 H1 H2 (n1 & Hn1 & Hg1 & Ho1)%growing_for_spec
      (n2 & Hn2 & Hg2 & Ho2)%growing_for_spec.
    destruct (Hgr r1 n1 H1 Hn1 Hg1) as [_ Ha1].
    destruct (Hgr r2 n2 H2 Hn2 Hg2) as [_ Ha2]. congruence.
  - rewrite filter_nil_iff; [done |].
    intros r Hr. destruct (growing_for st b r) eqn:E; [| done].
    apply growing_for_spec in E as (n & Hn & Hg & Ho).
    destruct (Hgr r n Hr Hn Hg) as [Hp _]. congruence.
Qed.

Lemma growing_note_iff_pressed_witness :
  growing_count pressed_again "1" = 1%nat
  /\ growing_count released_once "1" = 0%nat.
Proof.
  split.
  - rewrite (growing_note_iff_pressed pressed_again "1").
    + vm_compute. reflexivity.
    + apply in_run_pressed_again.
    + apply (bool_decide_unpack _). vm_compute. exact I.
  - rewrite (growing_note_iff_pressed released_once "1").
    + vm_compute. reflexivity.
    + apply reachable_in_run, reachable_released_once.
    + apply (bool_decide_unpack _). vm_compute. exact I.
Defined.

(** X3: in every state of a run, [self.active_notes] maps an id to a
    reference exactly when that reference is in [self.notes] and its note
    is growing and owned by the id; the id is then marked pressed. *)
Theorem active_notes_are_the_growing_notes st b r :
  in_run st ->
  (active_notes st !! b = Some r <->
   r ∈ notes st
   /\ exists n, note_objects st !! r = Some n
                /\ is_growing n = true /\ button_id n = b)
  /\ (active_notes st !! b = Some r -> already_pressed st b = true).
Proof.
  intros [Hlock [Hnd Hal Hgr] Hact Hpr _ _]%in_run_inv. split; [split |].
  - intros Hr. destruct (Hact b r Hr) as (Hin & _ & Hex). done.
  - intros (Hin & n & Hn & Hg & <-). by destruct (Hgr r n Hin Hn Hg).
  - intros Hr. by destruct (Hact b r Hr) as (_ & Hp & _).
Qed.

Lemma active_notes_are_the_growing_notes_witness :
  active_notes pressed_again !! "1" = Some 1%nat
  /\ already_pressed pressed_again "1" = true.
Proof.
  destruct (active_notes_are_the_growing_notes pressed_again "1" 1%nat)
    as [Hiff Hp]; [apply in_run_pressed_again |].
  assert (active_notes pressed_again !! "1" = Some 1%nat) as H
    by (vm_compute; reflexivity).
  split; [exact H | exact (Hp H)].
Defined.

(** X4: in every state of a run the total counter is the sum of the
    per-id counters and the number of press lines printed: a press counts
    once in each, and nothing else changes them, [emergency_cleanup]
    included. *)
Theorem total_presses_is_the_sum st :
  in_run st ->
  total_presses st = sum_counts (button_press_count st)
  /\ total_presses st = pressed_lines (console st).
Proof. intros [_ _ _ _ Htot Hlin]%in_run_inv. done. Qed.

Lemma total_presses_is_the_sum_witness :
  total_presses pressed_again = 2%Z
  /\ sum_counts (button_press_count pressed_again) = 2%Z
  /\ pressed_lines (console pressed_again) = 2%Z.
Proof.
  destruct (total_presses_is_the_sum pressed_again) as [H1 H2];
    [apply in_run_pressed_again |].
  assert (total_presses pressed_again = 2%Z) as H by (vm_compute; reflexivity).
  split; [exact H |]. split; [by rewrite <- H1 | by rewrite <- H2].
Defined.


(** ** Releases *)

(** X5: a release of an id that is not held (never pressed, or already
    released) returns the state unchanged, and so a second release right
    after a first one changes nothing more. *)
Theorem release_is_idempotent b st :
  global_input_lock st = false ->
  exists st1,
    on_button_release b st = Done st1
    /\ on_button_release b st1 = Done st1
    /\ already_pressed st1 b = false
    /\ (already_pressed st b = false -> st1 = st).
Proof.
  intros Hfree. rewrite on_button_release_free by done.
  destruct (already_pressed st b) eqn:Hheld.
  - assert (already_pressed (release_update b st) b = false) as Hrel.
    { unfold already_pressed.
      destruct (release_update_core b st) as (-> & _).
      by rewrite lookup_insert_eq. }
    exists (release_update b st). split; [done |]. split; [| done].
    rewrite on_button_release_free by (by rewrite release_update_free).
    by rewrite Hrel.
  - exists st. split; [done |]. split; [| done].
    rewrite on_button_release_free by done. by rewrite Hheld.
Qed.

Lemma release_is_idempotent_witness :
  on_button_release "1" (initial_state 0 None GENERIC false)
  = Done (initial_state 0 None GENERIC false).
Proof.
  destruct (release_is_idempotent "1" (initial_state 0 None GENERIC false))
    as (st1 & H1 & _ & _ & Hsame); [reflexivity |].
  rewrite H1. f_equal. apply Hsame. reflexivity.
Defined.

(** X6: in a state of a run, a press of an id of [BUTTON_ORDER] that is
    not held, followed at the time [t] by its release, leaves the id not
    pressed and the active notes as they were, and adds to [self.notes]
    one note of the id that is no longer growing, created at the time of
    the press and released at [t]; the total counter is one more and the
    two lines are printed. *)
Theorem press_then_release b t st :
  in_run st -> already_pressed st b = false -> b ∈ BUTTON_ORDER ->
  exists st2 n,
    after [on_button_press b; at_time t; on_button_release b] st = Done st2
    /\ already_pressed st2 b = false
    /\ active_notes st2 = active_notes st
    /\ notes st2 = (notes st ++ [length (note_objects st)])%list
    /\ note_objects st2 = (note_objects st ++ [n])%list
    /\ button_id n = b /\ is_growing n = false
    /\ start_time n = clock st /\ end_time n = Some t
    /\ total_presses st2 = (total_presses st + 1)%Z
    /\ console st2 = (console st ++ [Pressed b; Released b])%list.
Proof.
  intros Hinv%in_run_inv Hheld [lane Hlane]%list_index_Some.
  pose proof (run_lock _ Hinv) as Hfree.
  assert (active_notes st !! b = None) as Hnone.
  { destruct (active_notes st !! b) as [r |] eqn:E; [| done].
    destruct (run_active _ Hinv b r E) as (_ & Hp & _). congruence. }
  assert (exists st1 n,
            on_button_press b st = Done st1
            /\ global_input_lock st1 = false
            /\ button_states st1 = <[b := true]> (button_states st)
            /\ total_presses st1 = (total_presses st + 1)%Z
            /\ console st1 = (console st ++ [Pressed b])%list
            /\ notes st1 = (notes st ++ [length (note_objects st)])%list
            /\ note_objects st1 = (note_objects st ++ [n])%list
            /\ active_notes st1
               = <[b := length (note_objects st)]> (active_notes st)
            /\ button_id n = b /\ start_time n = clock st)
    as (st1 & n & H1 & Hfree1 & Hb1 & Ht1 & Hl1 & Hn1 & Ho1 & Ha1 & Hown
        & Hstart).
  { rewrite on_button_press_free, Hheld by done.
    destruct (press_update_core b st) as (Hb1 & Hc1 & Ht1 & Hl1).
    pose proof (press_update_notes b st) as Hn1. rewrite Hlane in Hn1.
    destruct Hn1 as (n & Hn1 & Ho1 & Ha1 & Hown & Hg & Hstart & Hend).
    exists (press_update b st), n. rewrite press_update_free.
    repeat split; done. }
  unfold after, for_each, at_time. rewrite H1. cbn [bind].
  assert (already_pressed (set_clock t st1) b = true) as Hheld1.
  { unfold already_pressed. fields. by rewrite Hb1, lookup_insert_eq. }
  rewrite on_button_release_free, Hheld1 by done. cbn [bind].
  destruct (release_update_core b (set_clock t st1))
    as (Hb2 & Hc2 & Ht2 & Hl2 & Hn2 & Ha2 & Ho2).
  fields in Hb2. fields in Ht2. fields in Hl2.
  fields in Hn2. fields in Ha2. fields in Ho2.
  rewrite Ha1, lookup_insert_eq, Ho1 in Ho2.
  exists (release_update b (set_clock t st1)), (end_note t n).
  split; [done |]. unfold already_pressed.
  rewrite Hb2, Ha2, Hn2, Ho2, Ht2, Hl2, Hb1, Ha1, Hn1, Ht1, Hl1.
  rewrite lookup_insert_eq, delete_insert_eq, (delete_id _ _ Hnone).
  repeat split; try done.
  - replace (length (note_objects st)) with (length (note_objects st) + 0)%nat
      by lia.
    by rewrite alter_app_r.
  - by rewrite <- app_assoc.
Qed.

Lemma press_then_release_witness :
  exists st2 n,
    after [on_button_press "1"; at_time 0.5; on_button_release "1"]
      (initial_state 0 None GENERIC false) = Done st2
    /\ already_pressed st2 "1" = false
    /\ active_notes st2 = ∅
    /\ notes st2 = [0%nat]
    /\ note_objects st2 = [n]
    /\ button_id n = "1" /\ is_growing n = false
    /\ start_time n = 0%float /\ end_time n = Some 0.5%float
    /\ total_presses st2 = 1%Z
    /\ console st2 = [Pressed "1"; Released "1"].
Proof.
  apply (press_then_release "1" 0.5 (initial_state 0 None GENERIC false)).
  - apply in_run_init.
  - reflexivity.
  - apply (bool_decide_unpack _). vm_compute. exact I.
Defined.


(** ** More on the button table *)

Lemma snes_switch_mapping_outside i :
  ¬ (0 <= i <= 15)%Z -> snes_switch_mapping !! i = None.
Proof. intros Hi. apply list_to_map_outside. not_in_literals. Qed.

Lemma get_button_mapping_range ct i b :
  get_button_mapping ct i = Some b -> (0 <= i <= 15)%Z.
Proof.
  intros Hmap. destruct (decide (0 <= i <= 15)%Z) as [| Hout]; [done |].
  exfalso. revert Hmap. unfold get_button_mapping.
  destruct ct; simpl;
    rewrite ?dict_update_lookup; unfold override_lookup;
    rewrite ?snes_switch_mapping_outside, ?switch_pro_mapping_outside,
      ?generic_mapping_outside by done; done.
Qed.

(** X7: every id that the table of [streampad.py] gives is an id of its
    [BUTTON_ORDER], and so has a lane, except the two stick clicks of
    the SwitchPro table: the raw indices 7 and 8, which give ['10'] and
    ['11'].  Every id that the table of [streampad_pygame.py] gives is an
    id of the [BUTTON_ORDER] of that file, which has twelve lanes and
    neither ['6'] nor ['7']. *)
Theorem mapped_ids_have_lanes ct i b :
  (get_button_mapping ct i = Some b ->
   match ct with
   | SWITCH_PRO =>
       b ∈ BUTTON_ORDER \/ (i = 7%Z /\ b = "10") \/ (i = 8%Z /\ b = "11")
   | _ => b ∈ BUTTON_ORDER
   end)
  /\ (Variant.get_button_mapping ct i = Some b -> b ∈ Variant.BUTTON_ORDER).
Proof.
  split.
  - unfold get_button_mapping. revert i b.
    destruct ct;
      match goal with
      | |- forall i b, ?m !! i = Some b -> @?P i b =>
          change (map_Forall P m)
      end;
      apply (bool_decide_unpack _); vm_compute; exact I.
  - unfold Variant.get_button_mapping. revert i b.
    destruct ct;
      match goal with
      | |- forall i b, ?m !! i = Some b -> @?P i b =>
          change (map_Forall P m)
      end;
      apply (bool_decide_unpack _); vm_compute; exact I.
Qed.

(** The raw button 7 of a generic pad is ['9'] in both files; the raw
    button 6 of a SwitchPro pad is ['4'] in [streampad_pygame.py]. *)
Lemma mapped_ids_have_lanes_witness :
  (get_button_mapping GENERIC 7 = Some "9" /\ "9" ∈ BUTTON_ORDER)
  /\ (Variant.get_button_mapping GENERIC 7 = Some "9"
      /\ "9" ∈ Variant.BUTTON_ORDER)
  /\ (Variant.get_button_mapping SWITCH_PRO 6 = Some "4"
      /\ "4" ∈ Variant.BUTTON_ORDER).
Proof.
  split; [| split].
  - split; [reflexivity |].
    destruct (mapped_ids_have_lanes GENERIC 7 "9") as [H _].
    apply H. reflexivity.
  - split; [reflexivity |].
    destruct (mapped_ids_have_lanes GENERIC 7 "9") as [_ H].
    apply H. reflexivity.
  - split; [reflexivity |].
    destruct (mapped_ids_have_lanes SWITCH_PRO 6 "4") as [_ H].
    apply H. reflexivity.
Defined.

(** X8: a button event is dropped, the state being returned unchanged,
    when it comes from a controller that is not the active one or when
    its raw index is negative or above 15, for which no family has an
    entry. *)
Theorem unmapped_button_events_are_dropped st joy i :
  from_active_controller st joy = false \/ (i < 0)%Z \/ (15 < i)%Z ->
  handle_event (JOYBUTTONDOWN joy i) st = Done st
  /\ handle_event (JOYBUTTONUP joy i) st = Done st.
Proof.
  intros Hcase. unfold handle_event, emit_mapped.
  destruct (from_active_controller st joy) eqn:Hjoy; [| done].
  destruct Hcase as [| Hout]; [done |].
  destruct (get_button_mapping (controller_type st) i) as [b |] eqn:Hmap;
    [| done].
  apply get_button_mapping_range in Hmap. lia.
Qed.

Lemma unmapped_button_events_are_dropped_witness :
  handle_event (JOYBUTTONDOWN 0 16) pressed_again = Done pressed_again
  /\ handle_event (JOYBUTTONUP 0 16) pressed_again = Done pressed_again.
Proof.
  apply (unmapped_button_events_are_dropped pressed_again 0 16).
  right. right. reflexivity.
Defined.

(** ** Events *)

Lemma button_down_free st joy i b :
  global_input_lock st = false ->
  from_active_controller st joy = true ->
  get_button_mapping (controller_type st) i = Some b ->
  handle_event (JOYBUTTONDOWN joy i) st
  = Done (if already_pressed st b then st else press_update b st).
Proof.
  intros Hfree Hjoy Hmap. unfold handle_event, emit_mapped.
  rewrite Hjoy, Hmap, (mapped_id_truthy _ _ _ Hmap).
  by rewrite on_button_press_free.
Qed.

Lemma button_up_free st joy i b :
  global_input_lock st = false ->
  from_active_controller st joy = true ->
  get_button_mapping (controller_type st) i = Some b ->
  handle_event (JOYBUTTONUP joy i) st
  = Done (if already_pressed st b then release_update b st else st).
Proof.
  intros Hfree Hjoy Hmap. unfold handle_event, emit_mapped.
  rewrite Hjoy, Hmap, (mapped_id_truthy _ _ _ Hmap).
  by rewrite on_button_release_free.
Qed.

(** X9: raw buttons that the table maps to the same id are not counted.
    When two of them go down one after the other, the second press is
    swallowed, and the release of the first releases the id although the
    second is still down; the later release of the second changes
    nothing. *)
Theorem aliased_buttons_share_one_press st joy i j b :
  global_input_lock st = false ->
  from_active_controller st joy = true ->
  get_button_mapping (controller_type st) i = Some b ->
  get_button_mapping (controller_type st) j = Some b ->
  already_pressed st b = false ->
  exists st3,
    after [handle_event (JOYBUTTONDOWN joy i);
           handle_event (JOYBUTTONDOWN joy j);
           handle_event (JOYBUTTONUP joy i)] st = Done st3
    /\ already_pressed st3 b = false
    /\ console st3 = (console st ++ [Pressed b; Released b])%list
    /\ handle_event (JOYBUTTONUP joy j) st3 = Done st3.
Proof.
  intros Hfree Hjoy Hi Hj Hheld.
  assert (exists st1,
            handle_event (JOYBUTTONDOWN joy i) st = Done st1
            /\ same_rest st st1 /\ already_pressed st1 b = true
            /\ console st1 = (console st ++ [Pressed b])%list)
    as (st1 & H1 & Hrest1 & Hheld1 & Hl1).
  { rewrite (button_down_free st joy i b), Hheld by done.
    eexists. split; [done |]. split; [apply press_update_rest |].
    split; [apply already_pressed_press_update |].
    by destruct (press_update_core b st) as (_ & _ & _ & ->). }
  assert (global_input_lock st1 = false) as Hfree1
    by (by rewrite (rest_global_input_lock _ _ Hrest1)).
  assert (from_active_controller st1 joy = true) as Hjoy1.
  { unfold from_active_controller in *.
    by rewrite (rest_active_controller _ _ Hrest1). }
  pose proof (rest_controller_type _ _ Hrest1) as Hct1.
  assert (exists st3,
            handle_event (JOYBUTTONUP joy i) st1 = Done st3
            /\ same_rest st1 st3 /\ already_pressed st3 b = false
            /\ console st3 = (console st1 ++ [Released b])%list)
    as (st3 & H3 & Hrest3 & Hheld3 & Hl3).
  { rewrite (button_up_free st1 joy i b), Hheld1 by (done || by rewrite Hct1).
    eexists. split; [done |]. split; [apply release_update_rest |].
    destruct (release_update_core b st1) as (Hb & _ & _ & -> & _).
    unfold already_pressed. by rewrite Hb, lookup_insert_eq. }
  exists st3. unfold after, for_each. rewrite H1. cbn [bind].
  rewrite (button_down_free st1 joy j b), Hheld1 by (done || by rewrite Hct1).
  cbn [bind]. rewrite H3. cbn [bind].
  split; [done |]. split; [done |].
  split; [by rewrite Hl3, Hl1, <- app_assoc |].
  rewrite (button_up_free st3 joy j b), Hheld3; [done | | |].
  - by rewrite (rest_global_input_lock _ _ Hrest3).
  - unfold from_active_controller in *.
    by rewrite (rest_active_controller _ _ Hrest3).
  - by rewrite (rest_controller_type _ _ Hrest3), Hct1.
Qed.

(** The raw buttons 6 and 8 of a generic pad are both SELECT, ['8']. *)
Lemma aliased_buttons_share_one_press_witness :
  exists st3,
    after [handle_event (JOYBUTTONDOWN 0 6);
           handle_event (JOYBUTTONDOWN 0 8);
           handle_event (JOYBUTTONUP 0 6)]
      (initial_state 0 (Some idle_pad) GENERIC false) = Done st3
    /\ already_pressed st3 "8" = false
    /\ console st3 = [Pressed "8"; Released "8"]
    /\ handle_event (JOYBUTTONUP 0 8) st3 = Done st3.
Proof.
  apply (aliased_buttons_share_one_press
           (initial_state 0 (Some idle_pad) GENERIC false) 0 6 8 "8");
    reflexivity.
Defined.

Lemma hat_transition_same press release (d : gmap string bool) bid st :
  hat_transition press release d d bid st = Done st.
Proof. unfold hat_transition. by destruct (d !!! bid). Qed.

(** X10: a hat event stamps [last_hat_event_time] whatever controller it
    comes from.  When it comes from a controller that is not the active
    one, or repeats the hat vector that was seen last, nothing is emitted
    and only that stamp changes. *)
Theorem hat_event_without_transition st joy v :
  from_active_controller st joy = false \/ last_hat_state st = v ->
  handle_event (JOYHATMOTION joy v) st
  = Done (set_last_hat_event_time (clock st) st).
Proof.
  intros Hcase. unfold handle_event. cbv zeta.
  unfold from_active_controller. fields.
  fold (from_active_controller st joy).
  destruct (from_active_controller st joy) eqn:Hjoy; [| done].
  destruct Hcase as [| <-]; [done |].
  unfold for_each.
  repeat (rewrite hat_transition_same; cbn [bind]). cbn [except_pass].
  by destruct st.
Qed.

Lemma hat_event_without_transition_witness :
  handle_event (JOYHATMOTION 7 (1, 1)%Z) (after_hat_event 1000.04)
  = Done (set_last_hat_event_time 1000.04 (after_hat_event 1000.04)).
Proof.
  apply (hat_event_without_transition (after_hat_event 1000.04) 7 (1, 1)%Z).
  left. reflexivity.
Defined.

(** ** The check never changes the state *)

(** X11: [validate_button_states] returns the state unchanged, whatever
    the state and the device: it releases nothing and resets nothing.
    The same holds of the periodic check of [run], for every value of
    the timer. *)
Theorem validation_changes_nothing st timer dt :
  global_input_lock st = false ->
  validate_button_states st = Done st
  /\ (periodic_validation timer dt st).2 = Done st.
Proof.
  intros Hfree. split; [by apply validate_button_states_noop |].
  unfold periodic_validation.
  destruct (validation_interval <=? timer + dt)%float; simpl; [| done].
  by apply validate_button_states_noop.
Qed.

Lemma validation_changes_nothing_witness :
  validate_button_states pressed_again = Done pressed_again
  /\ (periodic_validation 1.5 0.75 pressed_again).2 = Done pressed_again.
Proof.
  apply (validation_changes_nothing pressed_again 1.5 0.75). reflexivity.
Defined.

(** ** The scan of the controllers *)

(** X12: after [__init__], [nintendo_hat_only] is set only for a
    controller of the SwitchPro or of the SnesSwitch family: the name
    that sets the flag contains "nintendo" or "switch". *)
Theorem hat_only_is_a_nintendo_pad t0 devices :
  nintendo_hat_only (startup_state t0 devices) = true ->
  controller_type (startup_state t0 devices) = SWITCH_PRO
  \/ controller_type (startup_state t0 devices) = SNES_SWITCH.
Proof.
  destruct devices as [| c devices]; simpl; [done |].
  unfold detect_hat_only, detect_controller_type. cbv zeta.
  intros [_ Hname%orb_true_iff]%andb_true_iff.
  destruct (contains "pro controller" (lower (get_name c))
            || contains "switch pro" (lower (get_name c))); [by left |].
  right. destruct Hname as [-> | ->]; [done |].
  by rewrite orb_true_r.
Qed.

Lemma hat_only_is_a_nintendo_pad_witness :
  controller_type (startup_state 0 [switch_pad]) = SWITCH_PRO
  \/ controller_type (startup_state 0 [switch_pad]) = SNES_SWITCH.
Proof.
  apply (hat_only_is_a_nintendo_pad 0 [switch_pad]). reflexivity.
Defined.


(** ** The polling thread *)

Lemma emits_only_refl ids st : emits_only ids st st.
Proof. exists []. by rewrite app_nil_r. Qed.

Lemma emits_only_trans ids st1 st2 st3 :
  emits_only ids st1 st2 -> emits_only ids st2 st3 -> emits_only ids st1 st3.
Proof.
  intros (l1 & Hl1 & Hf1 & Hb1) (l2 & Hl2 & Hf2 & Hb2).
  exists (l1 ++ l2)%list. split; [by rewrite Hl2, Hl1, app_assoc |].
  split; [by apply Forall_app |].
  intros b Hb. by rewrite Hb2, Hb1.
Qed.

Lemma emits_only_core ids st st' : same_core st st' -> emits_only ids st st'.
Proof.
  intros [Hb _ _ _ _ _ Hl]. exists []. rewrite app_nil_r.
  split; [done |]. split; [done |]. intros b _. by rewrite Hb.
Qed.

Lemma emits_only_weaken ids ids' st st' :
  ids ⊆ ids' -> emits_only ids st st' -> emits_only ids' st st'.
Proof.
  intros Hsub (l & Hl & Hf & Hb). exists l. split; [done |]. split.
  - eapply Forall_impl; [exact Hf |]. intros e He. by apply Hsub.
  - intros b Hb'. apply Hb. intros Hin. by apply Hb', Hsub.
Qed.

Lemma emit_mapped_locked emit i st :
  emit = on_button_press \/ emit = on_button_release ->
  emit_mapped (locked emit) i st = Done st
  \/ emit_mapped (locked emit) i st = Blocked.
Proof.
  intros Hemit. unfold emit_mapped.
  destruct (get_button_mapping _ i) as [b |]; [| by left].
  destruct (str_truthy b); [| by left].
  right. by apply locked_blocks.
Qed.

Lemma poll_button_done suppress i b st st' :
  poll_button suppress (i, b) st = Done st' ->
  st' = set_last_global_button_states
          (<[i := b]> (last_global_button_states st)) st.
Proof.
  unfold poll_button. destruct suppress; [congruence |].
  destruct (_ && bool_decide _); [congruence |].
  destruct (b && negb _).
  - destruct (emit_mapped_locked on_button_press i st) as [-> | ->];
      [by left | | done].
    cbn [bind]. destruct (negb b && _).
    + destruct (emit_mapped_locked on_button_release i st) as [-> | ->];
        [by right | | done].
      cbn [bind]. congruence.
    + cbn [bind]. congruence.
  - cbn [bind]. destruct (negb b && _).
    + destruct (emit_mapped_locked on_button_release i st) as [-> | ->];
        [by right | | done].
      cbn [bind]. congruence.
    + cbn [bind]. congruence.
Qed.

Lemma poll_loop_done suppress readings : forall st st',
  for_each readings (poll_button suppress) st = Done st' ->
  exists m, st' = set_last_global_button_states m st.
Proof.
  induction readings as [| [i b] readings IH]; intros st st' H;
    cbn [for_each] in H.
  - injection H as <-. exists (last_global_button_states st).
    by rewrite set_last_global_button_states_id.
  - destruct (poll_button suppress (i, b) st) as [s1 | |] eqn:E;
      cbn [bind] in H; [| done | done].
    apply poll_button_done in E. subst s1.
    destruct (IH _ _ H) as [m ->]. by exists m.
Qed.

Lemma poll_button_never_raises suppress i b st e s :
  poll_button suppress (i, b) st <> Raised e s.
Proof.
  unfold poll_button.
  destruct suppress; [done |]. destruct (_ && bool_decide _); [done |].
  destruct (b && negb _).
  - destruct (emit_mapped_locked on_button_press i st) as [-> | ->];
      [by left | | done].
    cbn [bind]. destruct (negb b && _); [| done].
    destruct (emit_mapped_locked on_button_release i st) as [-> | ->];
      [by right | done | done].
  - cbn [bind]. destruct (negb b && _); [| done].
    destruct (emit_mapped_locked on_button_release i st) as [-> | ->];
      [by right | done | done].
Qed.

Lemma poll_loop_never_raises suppress readings : forall st e s,
  for_each readings (poll_button suppress) st <> Raised e s.
Proof.
  induction readings as [| [i b] readings IH]; intros st e s;
    cbn [for_each]; [done |].
  destruct (poll_button suppress (i, b) st) as [s2 | e2 s2 |] eqn:E2;
    cbn [bind]; [apply IH | | done].
  by apply poll_button_never_raises in E2.
Qed.

Lemma check_global_buttons_done st st' :
  check_global_buttons st = Done st' ->
  exists m, st' = set_last_global_button_states m st.
Proof.
  assert (exists m, st = set_last_global_button_states m st) as Hid.
  { exists (last_global_button_states st).
    by rewrite set_last_global_button_states_id. }
  unfold check_global_buttons.
  destruct (active_controller st) as [gamepad |]; simpl;
    [| intros [= <-]; exact Hid].
  destruct (get_init gamepad); simpl; [| intros [= <-]; exact Hid].
  destruct (display_active st); simpl; [intros [= <-]; exact Hid |].
  intros H.
  destruct (for_each _ _ st) as [s1 | e s1 |] eqn:E; simpl in H;
    [| | done].
  - injection H as <-. by eapply poll_loop_done.
  - by apply poll_loop_never_raises in E.
Qed.

(** The loop of the hat code with the emissions under the lock: it
    returns when no direction changes and blocks when one does. *)
Lemma hat_loop_locked (d p : gmap string bool) st :
  for_each ["14"; "15"; "12"; "13"]
    (hat_transition (locked on_button_press) (locked on_button_release) d p)
    st
  = if bool_decide ((d !!! "14", d !!! "15", d !!! "12", d !!! "13")
                    = (p !!! "14", p !!! "15", p !!! "12", p !!! "13"))
    then Done st else Blocked.
Proof.
  unfold for_each, hat_transition.
  generalize (d !!! "14") (d !!! "15") (d !!! "12") (d !!! "13")
    (p !!! "14") (p !!! "15") (p !!! "12") (p !!! "13").
  intros d1 d2 d3 d4 p1 p2 p3 p4.
  destruct d1, p1;
    repeat (cbn [bind andb negb]; rewrite ?locked_blocks by auto);
    try (rewrite bool_decide_eq_false_2 by congruence; reflexivity);
    destruct d2, p2;
    repeat (cbn [bind andb negb]; rewrite ?locked_blocks by auto);
    try (rewrite bool_decide_eq_false_2 by congruence; reflexivity);
    destruct d3, p3;
    repeat (cbn [bind andb negb]; rewrite ?locked_blocks by auto);
    try (rewrite bool_decide_eq_false_2 by congruence; reflexivity);
    destruct d4, p4;
    repeat (cbn [bind andb negb]; rewrite ?locked_blocks by auto);
    try (rewrite bool_decide_eq_false_2 by congruence; reflexivity);
    rewrite bool_decide_eq_true_2 by reflexivity; reflexivity.
Qed.

Lemma hat_dict_directions v w :
  (hat_dict v !!! "14", hat_dict v !!! "15", hat_dict v !!! "12",
   hat_dict v !!! "13")
  = (hat_dict w !!! "14", hat_dict w !!! "15", hat_dict w !!! "12",
     hat_dict w !!! "13")
  <-> hat_directions v = hat_directions w.
Proof.
  destruct (hat_dict_lookup v) as (-> & -> & -> & ->).
  destruct (hat_dict_lookup w) as (-> & -> & -> & ->).
  unfold hat_directions. split; congruence.
Qed.

(** X13: a poll of the hat by the polling thread returns exactly when no
    d-pad direction differs from the last hat state; it then only records
    the vector and stamps the time.  When a direction differs, the thread
    blocks on the lock it already holds, before anything is emitted. *)
Theorem background_hat_poll st c v rest :
  active_controller st = Some c ->
  get_init c = true ->
  hats c = v :: rest ->
  check_global_hat st
  = if bool_decide (hat_directions v = hat_directions (last_hat_state st))
    then Done (set_last_hat_event_time (clock st)
                 (set_last_global_hat_state v (set_last_hat_state v st)))
    else Blocked.
Proof.
  intros Hc Hinit Hhats. unfold check_global_hat.
  rewrite Hc, Hinit, Hhats. cbn [negb]. destruct v as [hx hy]. cbv zeta.
  rewrite hat_loop_locked.
  rewrite (bool_decide_ext _ _ (hat_dict_directions _ _)).
  by case_bool_decide.
Qed.

(** The hat of the device still points left, as [last_hat_state] says:
    the poll returns.  The hat is back at the centre: it blocks. *)
Lemma background_hat_poll_witness :
  check_global_hat (unfocused_after_hat_event 1000.04)
  = Done (set_last_hat_event_time 1000.04
            (set_last_global_hat_state (-1, 0)%Z
               (set_last_hat_state (-1, 0)%Z
                  (unfocused_after_hat_event 1000.04))))
  /\ check_global_hat
       (set_active_controller (Some idle_pad)
          (unfocused_after_hat_event 1000.04)) = Blocked.
Proof.
  split.
  - etrans.
    + eapply (background_hat_poll (unfocused_after_hat_event 1000.04));
        reflexivity.
    + reflexivity.
  - etrans.
    + eapply (background_hat_poll
                (set_active_controller (Some idle_pad)
                   (unfocused_after_hat_event 1000.04)));
        reflexivity.
    + reflexivity.
Defined.


(** ** The axes *)

Lemma on_button_press_done b st st' :
  on_button_press b st = Done st' ->
  global_input_lock st = false
  /\ st' = (if already_pressed st b then st else press_update b st).
Proof.
  intros H. destruct (global_input_lock st) eqn:Hl.
  - by rewrite on_button_press_held in H.
  - rewrite on_button_press_free in H by done. split; congruence.
Qed.

Lemma on_button_release_done b st st' :
  on_button_release b st = Done st' ->
  global_input_lock st = false
  /\ st' = (if already_pressed st b then release_update b st else st).
Proof.
  intros H. destruct (global_input_lock st) eqn:Hl.
  - by rewrite on_button_release_held in H.
  - rewrite on_button_release_free in H by done. split; congruence.
Qed.

Lemma on_button_press_emits b st st' :
  on_button_press b st = Done st' ->
  same_rest st st' /\ emits_only [b] st st'.
Proof.
  intros [_ ->]%on_button_press_done.
  destruct (already_pressed st b);
    [split; [apply same_rest_refl | apply emits_only_refl] |].
  split; [apply press_update_rest |].
  destruct (press_update_core b st) as (Hb & _ & _ & Hl).
  exists [Pressed b]. split; [done |]. split.
  - repeat constructor.
  - intros b' Hb'. rewrite Hb, lookup_insert_ne; [done |].
    intros ->. apply Hb'. constructor.
Qed.

Lemma on_button_release_emits b st st' :
  on_button_release b st = Done st' ->
  same_rest st st' /\ emits_only [b] st st'.
Proof.
  intros [_ ->]%on_button_release_done.
  destruct (already_pressed st b);
    [| split; [apply same_rest_refl | apply emits_only_refl]].
  split; [apply release_update_rest |].
  destruct (release_update_core b st) as (Hb & _ & _ & Hl & _).
  exists [Released b]. split; [done |]. split.
  - repeat constructor.
  - intros b' Hb'. rewrite Hb, lookup_insert_ne; [done |].
    intros ->. apply Hb'. constructor.
Qed.

(** What a call of [press_release] that returns has done. *)
Lemma press_release_done flag_key pressed bid st st' :
  press_release on_button_press on_button_release flag_key pressed bid st
  = Done st' ->
  active_controller st' = active_controller st
  /\ controller_type st' = controller_type st
  /\ default false (last_axis_states st' !! flag_key) = pressed
  /\ (forall k, k <> flag_key ->
        last_axis_states st' !! k = last_axis_states st !! k)
  /\ emits_only [bid] st st'.
Proof.
  unfold press_release.
  destruct (Bool.eqb pressed (default false (last_axis_states st !! flag_key)))
    eqn:Hsame; cbn [negb].
  - intros [= <-]. apply Bool.eqb_prop in Hsame.
    repeat split; [done | apply emits_only_refl].
  - intros H.
    assert (exists st1,
              (if pressed then on_button_press bid st
               else on_button_release bid st) = Done st1
              /\ st' = set_last_axis_states
                         (<[flag_key := pressed]> (last_axis_states st1)) st1)
      as (st1 & H1 & ->).
    { destruct (if pressed then _ else _) as [st1 | |]; cbn [bind] in H;
        [| done | done].
      exists st1. split; [done | congruence]. }
    assert (same_rest st st1 /\ emits_only [bid] st st1) as [Hrest Hem].
    { destruct pressed;
        [by apply on_button_press_emits | by apply on_button_release_emits]. }
    fields. rewrite lookup_insert_eq.
    split; [apply Hrest |]. split; [apply Hrest |]. split; [done |]. split.
    + intros k Hk. rewrite lookup_insert_ne by done.
      by rewrite (rest_last_axis_states _ _ Hrest).
    + eapply emits_only_trans; [exact Hem |].
      apply emits_only_core. by split.
Qed.

Lemma emission_never_raises (pressed : bool) bid st e s :
  (if pressed then on_button_press bid st else on_button_release bid st)
  <> Raised e s.
Proof.
  destruct pressed, (global_input_lock st) eqn:Hl;
    rewrite ?on_button_press_held, ?on_button_release_held,
      ?on_button_press_free, ?on_button_release_free by done; done.
Qed.

Lemma press_release_never_raises flag_key pressed bid st e s :
  press_release on_button_press on_button_release flag_key pressed bid st
  <> Raised e s.
Proof.
  unfold press_release. destruct (negb _); [| done].
  destruct (if pressed then _ else _) as [s1 | e1 s1 |] eqn:E; cbn [bind];
    [done | | done].
  by apply emission_never_raises in E.
Qed.

Lemma press_release_settled press release flag_key pressed bid st :
  default false (last_axis_states st !! flag_key) = pressed ->
  press_release press release flag_key pressed bid st = Done st.
Proof.
  intros <-. unfold press_release. by rewrite Bool.eqb_reflx.
Qed.

Lemma axis_loop_done (dirs : list (string * bool * string)) :
  NoDup (dirs.*1.*1) ->
  forall st st',
    for_each dirs
      (fun d => press_release on_button_press on_button_release
                  d.1.1 d.1.2 d.2) st = Done st' ->
    active_controller st' = active_controller st
    /\ controller_type st' = controller_type st
    /\ (forall d, d ∈ dirs ->
          default false (last_axis_states st' !! d.1.1) = d.1.2)
    /\ (forall k, k ∉ dirs.*1.*1 ->
          last_axis_states st' !! k = last_axis_states st !! k).
Proof.
  induction dirs as [| d dirs IH]; intros Hnd st st' H; cbn [for_each] in H.
  - injection H as <-. repeat split; try done. by intros d ?%elem_of_nil.
  - rewrite !fmap_cons in Hnd. apply NoDup_cons in Hnd as [Hd Hnd].
    destruct (press_release _ _ d.1.1 d.1.2 d.2 st) as [s1 | |] eqn:E;
      cbn [bind] in H; [| done | done].
    apply press_release_done in E as (Hc1 & Ht1 & Hk1 & Ho1 & _).
    destruct (IH Hnd _ _ H) as (Hc2 & Ht2 & Hk2 & Ho2).
    split; [congruence |]. split; [congruence |]. split.
    + intros d' [-> | Hd']%elem_of_cons; [| by apply Hk2].
      by rewrite Ho2.
    + intros k Hk. rewrite !fmap_cons in Hk.
      apply not_elem_of_cons in Hk as [Hne Hk].
      rewrite Ho2 by done. by apply Ho1.
Qed.

Lemma axis_loop_settled press release (dirs : list (string * bool * string))
    st :
  (forall d, d ∈ dirs ->
     default false (last_axis_states st !! d.1.1) = d.1.2) ->
  for_each dirs (fun d => press_release press release d.1.1 d.1.2 d.2) st
  = Done st.
Proof.
  induction dirs as [| d dirs IH]; intros H; cbn [for_each]; [done |].
  rewrite press_release_settled by (apply H; left). cbn [bind].
  apply IH. intros d' Hd'. apply H. by right.
Qed.

Lemma stick_keys_nodup x_axis y_axis :
  NoDup ((stick_directions x_axis y_axis).*1.*1).
Proof.
  change (NoDup ["left"; "right"; "up"; "down"]).
  apply (bool_decide_unpack _). vm_compute. exact I.
Qed.

(** X14: the stick code emits on changes only.  Once a call of
    [handle_joystick_axes] has returned, a second call with the same
    readings of the axes returns the state unchanged: nothing is emitted
    twice for a stick that is held in one position. *)
Theorem stick_emits_on_changes_only axes st st1 :
  handle_joystick_axes axes st = Done st1 ->
  handle_joystick_axes axes st1 = Done st1.
Proof.
  unfold handle_joystick_axes.
  destruct (active_controller st) as [c |] eqn:Hc;
    [| intros [= <-]; by rewrite Hc].
  destruct (is_snes_switch (controller_type st)) eqn:Hs;
    [intros [= <-]; by rewrite Hc, Hs |].
  destruct (get_init c) eqn:Hi; cbn [negb];
    [| intros [= <-]; by rewrite Hc, Hs, Hi].
  destruct axes as [| x_axis [| y_axis axes]];
    [intros [= <-]; by rewrite Hc, Hs, Hi
    | intros [= <-]; by rewrite Hc, Hs, Hi |].
  unfold stick_loop. intros H.
  apply axis_loop_done in H as (-> & -> & Hset & _);
    [| apply stick_keys_nodup].
  rewrite Hc, Hs, Hi. cbn [negb]. by apply axis_loop_settled.
Qed.

Lemma stick_emits_on_changes_only_witness :
  exists st1,
    handle_joystick_axes [(-1)%float; 0%float]
      (initial_state 0 (Some idle_pad) GENERIC false) = Done st1
    /\ console st1 = [Pressed "14"]
    /\ handle_joystick_axes [(-1)%float; 0%float] st1 = Done st1.
Proof.
  eexists. split; [vm_compute; reflexivity |]. split; [reflexivity |].
  apply stick_emits_on_changes_only with
    (st := initial_state 0 (Some idle_pad) GENERIC false).
  vm_compute. reflexivity.
Defined.

(** The two calls of [press_release] of the trigger code, without the
    tests that surround them. *)
Lemma trigger_twice axes st st1 :
  handle_trigger_axes axes st = Done st1 ->
  handle_trigger_axes axes st1 = Done st1
  /\ emits_only ["6"; "7"] st st1.
Proof.
  unfold handle_trigger_axes.
  destruct (active_controller st) as [c |] eqn:Hc;
    [| intros [= <-]; rewrite Hc; split; [done | apply emits_only_refl]].
  destruct (get_init c) eqn:Hi; cbn [negb];
    [| intros [= <-]; rewrite Hc, Hi; split; [done | apply emits_only_refl]].
  cbv zeta.
  destruct (length axes <=? 2)%nat eqn:Hn;
    [intros [= <-]; rewrite Hc, Hi; split; [done | apply emits_only_refl] |].
  destruct (5 <=? length axes)%nat eqn:H5.
  2:{ cbn [bind].
      assert ((6 <=? length axes)%nat = false) as H6.
      { apply Nat.leb_gt. apply Nat.leb_gt in H5. lia. }
      rewrite H6. intros [= <-]. rewrite Hc, Hi.
      split; [done | apply emits_only_refl]. }
  destruct (axes !! 4%nat) as [l2 |] eqn:H4.
  2:{ apply lookup_ge_None in H4. apply Nat.leb_le in H5. lia. }
  destruct (press_release _ _ "zl_axis" (0.5 <? l2)%float "6" st)
    as [s1 | |] eqn:E1; cbn [bind];
    [| by apply press_release_never_raises in E1 | done].
  apply press_release_done in E1 as (Hc1 & _ & Hk1 & Ho1 & Hem1).
  destruct (6 <=? length axes)%nat eqn:H6.
  - destruct (axes !! 5%nat) as [r2 |] eqn:H5';
      [| apply lookup_ge_None in H5'; apply Nat.leb_le in H6; lia].
    intros H.
    destruct (press_release _ _ "zr_axis" (0.5 <? r2)%float "7" s1)
      as [s2 | |] eqn:E2; cbn [except_pass] in H;
      [| by apply press_release_never_raises in E2 | done].
    injection H as <-.
    apply press_release_done in E2 as (Hc2 & _ & Hk2 & Ho2 & Hem2).
    rewrite Hc2, Hc1, Hc, Hi. cbn [negb].
    split.
    + rewrite (press_release_settled _ _ "zl_axis");
        [| by rewrite Ho2]. cbn [bind].
      by rewrite (press_release_settled _ _ "zr_axis").
    + eapply emits_only_trans.
      * eapply emits_only_weaken; [| exact Hem1].
        intros b' ->%list_elem_of_singleton. left.
      * eapply emits_only_weaken; [| exact Hem2].
        intros b' ->%list_elem_of_singleton. right. left.
  - intros [= <-]. rewrite Hc1, Hc, Hi. cbn [negb]. split.
    + by rewrite (press_release_settled _ _ "zl_axis").
    + eapply emits_only_weaken; [| exact Hem1].
      intros b' ->%list_elem_of_singleton. left.
Qed.

(** X15: the trigger code emits on changes only, and only for the ids
    ['6'] and ['7'].  Once a call of [handle_trigger_axes] has returned,
    a second call with the same readings returns the state unchanged. *)
Theorem triggers_emit_on_changes_only axes st st1 :
  handle_trigger_axes axes st = Done st1 ->
  handle_trigger_axes axes st1 = Done st1
  /\ emits_only ["6"; "7"] st st1.
Proof. apply trigger_twice. Qed.

Lemma triggers_emit_on_changes_only_witness :
  exists st1,
    handle_trigger_axes [0; 0; 0; 0; 1; 0]%float
      (initial_state 0 (Some idle_pad) GENERIC false) = Done st1
    /\ console st1 = [Pressed "6"]
    /\ handle_trigger_axes [0; 0; 0; 0; 1; 0]%float st1 = Done st1.
Proof.
  eexists. split; [vm_compute; reflexivity |]. split; [reflexivity |].
  apply (triggers_emit_on_changes_only [0; 0; 0; 0; 1; 0]%float
           (initial_state 0 (Some idle_pad) GENERIC false)).
  vm_compute. reflexivity.
Defined.


Lemma press_release_locked flag_key pressed bid st :
  press_release (locked on_button_press) (locked on_button_release)
    flag_key pressed bid st
  = if Bool.eqb pressed (default false (last_axis_states st !! flag_key))
    then Done st else Blocked.
Proof.
  unfold press_release. destruct (Bool.eqb _ _); cbn [negb]; [done |].
  destruct pressed; by rewrite locked_blocks by auto.
Qed.

Lemma locked_stick_loop_done dirs : forall st st',
  for_each dirs
    (fun d : string * bool * string =>
       press_release (locked on_button_press) (locked on_button_release)
         d.1.1 d.1.2 d.2) st = Done st' ->
  st' = st.
Proof.
  induction dirs as [| d dirs IH]; intros st st' H; cbn [for_each] in H;
    [congruence |].
  rewrite press_release_locked in H.
  destruct (Bool.eqb _ _); cbn [bind] in H; [by apply IH | done].
Qed.

Lemma locked_stick_loop_never_raises dirs : forall st e s,
  for_each dirs
    (fun d : string * bool * string =>
       press_release (locked on_button_press) (locked on_button_release)
         d.1.1 d.1.2 d.2) st <> Raised e s.
Proof.
  induction dirs as [| d dirs IH]; intros st e s; cbn [for_each]; [done |].
  rewrite press_release_locked.
  destruct (Bool.eqb _ _); cbn [bind]; [apply IH | done].
Qed.

Lemma check_global_joystick_axes_done axes st st' :
  check_global_joystick_axes axes st = Done st' -> st' = st.
Proof.
  unfold check_global_joystick_axes.
  destruct (active_controller st) as [c |]; [| simpl; congruence].
  destruct (get_init c); cbn [negb]; [| simpl; congruence].
  destruct axes as [| x_axis [| y_axis axes]];
    [simpl; congruence | simpl; congruence |].
  unfold stick_loop.
  destruct (for_each _ _ st) as [s1 | e s1 |] eqn:E; cbn [except_pass];
    [| by apply locked_stick_loop_never_raises in E | done].
  intros [= <-]. by apply locked_stick_loop_done in E.
Qed.

Lemma check_global_hat_done st st' :
  check_global_hat st = Done st' -> same_core st st'.
Proof.
  unfold check_global_hat.
  destruct (active_controller st) as [c |] eqn:Hc;
    [| intros [= <-]; apply same_core_refl].
  destruct (get_init c) eqn:Hi; cbn [negb];
    [| intros [= <-]; apply same_core_refl].
  destruct (hats c) as [| [hx hy] rest] eqn:Hh;
    [intros [= <-]; apply same_core_refl |].
  cbv zeta. rewrite hat_loop_locked.
  destruct (bool_decide _); cbn [bind except_pass]; [| done].
  intros [= <-]. by split.
Qed.

Lemma except_pass_any_never_raises o e s :
  except_pass any_exception o <> Raised e s.
Proof. by destruct o. Qed.

Lemma same_core_set_last_global_button_states m st :
  same_core st (set_last_global_button_states m st).
Proof. by split. Qed.

(** X16: whenever a pass of the polling thread returns, the only lines it
    has printed are for the ids ['6'] and ['7'], and no other id has
    changed in [self.button_states]: the analog triggers, whose code
    does not take the lock around its calls, are the one channel on which
    the polling thread emits.  A transition of a button, of the hat or of
    the stick makes the pass block instead. *)
Theorem polling_pass_emits_triggers_only axes st st' :
  check_global_controller_input axes st = Done st' ->
  emits_only ["6"; "7"] st st'.
Proof.
  unfold check_global_controller_input.
  destruct (active_controller st) as [c |];
    [| intros [= <-]; apply emits_only_refl].
  destruct (get_init c); cbn [negb]; [| intros [= <-]; apply emits_only_refl].
  destruct (display_active st); [intros [= <-]; apply emits_only_refl |].
  destruct (check_global_buttons st) as [s1 | e1 s1 |] eqn:E1; cbn [bind];
    [| by apply except_pass_any_never_raises in E1 | done].
  apply check_global_buttons_done in E1 as [m ->].
  destruct (check_global_hat _) as [s2 | e2 s2 |] eqn:E2; cbn [bind];
    [| by apply except_pass_any_never_raises in E2 | done].
  apply check_global_hat_done in E2.
  assert (same_core st s2) as Hcore.
  { eapply same_core_trans; [| exact E2].
    apply same_core_set_last_global_button_states. }
  clear E2.
  assert (forall s3,
            (if is_snes_switch (controller_type s2) then Done s2
             else check_global_joystick_axes axes s2) = Done s3 ->
            s3 = s2) as Hstick.
  { intros s3. destruct (is_snes_switch _); [congruence |].
    apply check_global_joystick_axes_done. }
  destruct (if is_snes_switch (controller_type s2) then _ else _)
    as [s3 | e3 s3 |] eqn:E3; cbn [bind]; [| | done].
  - rewrite (Hstick s3 eq_refl). intros H.
    assert (check_global_trigger_axes axes s2 = Done st') as Ht.
    { destruct (check_global_trigger_axes axes s2) as [s4 | e4 s4 |] eqn:E4;
        cbn [except_pass] in H;
        [congruence | by apply except_pass_any_never_raises in E4 | done]. }
    apply trigger_twice in Ht as [_ Hem].
    eapply emits_only_trans; [| exact Hem]. by apply emits_only_core.
  - destruct (is_snes_switch _); [done |].
    by apply except_pass_any_never_raises in E3.
Qed.

(** A pass that finds the left trigger pulled prints the press of ['6']
    and nothing else. *)
Lemma polling_pass_emits_triggers_only_witness :
  exists st',
    check_global_controller_input [0; 0; 0; 0; 1; 0]%float
      (set_display_active false
         (initial_state 0 (Some idle_pad) GENERIC false)) = Done st'
    /\ console st' = [Pressed "6"]
    /\ emits_only ["6"; "7"]
         (set_display_active false
            (initial_state 0 (Some idle_pad) GENERIC false)) st'.
Proof.
  eexists. split; [vm_compute; reflexivity |]. split; [reflexivity |].
  apply (polling_pass_emits_triggers_only [0; 0; 0; 0; 1; 0]%float).
  vm_compute. reflexivity.
Defined.

(** ** The notes and the cleanup *)

(** X17: [update_ddr_notes] never drops a note that is still growing, and
    adds none: a held note stays in [self.notes], still growing and with
    the same owner, the list after the update is a sub-list of the list
    before it, and the press state, the active notes and the counters
    are left alone. *)
Theorem update_keeps_held_notes st r n :
  r ∈ notes st ->
  note_objects st !! r = Some n ->
  is_growing n = true ->
  r ∈ notes (update_ddr_notes st)
  /\ (exists n', note_objects (update_ddr_notes st) !! r = Some n'
                 /\ is_growing n' = true /\ button_id n' = button_id n)
  /\ notes (update_ddr_notes st) `sublist_of` notes st
  /\ length (note_objects (update_ddr_notes st)) = length (note_objects st)
  /\ button_states (update_ddr_notes st) = button_states st
  /\ active_notes (update_ddr_notes st) = active_notes st
  /\ total_presses (update_ddr_notes st) = total_presses st.
Proof.
  intros Hr Hn Hg.
  destruct (update_ddr_notes_frame st) as (_ & Hb & Ha & _ & Ht & _).
  split; [by eapply update_ddr_notes_keeps_growing |].
  split.
  { exists (update_note (clock st) n).1.
    rewrite update_ddr_notes_objects, (update_loop_lookup _ _ _ _ r n Hn).
    rewrite bool_decide_eq_true_2 by done.
    by destruct (update_note_owner (clock st) n) as [-> ->]. }
  split; [apply update_ddr_notes_sublist |].
  split; [by rewrite update_ddr_notes_objects, update_loop_length |].
  done.
Qed.

Lemma update_keeps_held_notes_witness :
  0%nat ∈ notes (update_ddr_notes (held_500ms))
  /\ notes (update_ddr_notes (held_500ms)) `sublist_of` notes held_500ms.
Proof.
  assert (exists n, note_objects held_500ms !! 0%nat = Some n
                    /\ is_growing n = true) as (n & Hn & Hg).
  { eexists. split; [vm_compute; reflexivity | reflexivity]. }
  assert (0%nat ∈ notes held_500ms) as Hin.
  { apply (bool_decide_unpack _). vm_compute. exact I. }
  destruct (update_keeps_held_notes held_500ms 0%nat n Hin Hn Hg)
    as (H1 & _ & H2 & _).
  by split.
Defined.

Lemma emergency_cleanup_twice st st' :
  emergency_cleanup st = Done st' -> emergency_cleanup st' = Done st'.
Proof.
  destruct st. unfold emergency_cleanup, with_lock. fields.
  match goal with |- context [if ?b then Blocked else _] => destruct b end;
    [done |].
  rewrite map_to_list_empty. cbn [fmap list_fmap for_each]. fields.
  intros [= <-]. vm_compute. reflexivity.
Qed.

(** X18: [emergency_cleanup] returns whenever the lock is free, and never
    emits a release: its loop over [self.active_notes] runs after the
    dictionary has been cleared, so [on_button_release] is not called
    (under the lock that the cleanup holds it would not return).  The
    press state, the notes and the remembered inputs are cleared, the
    counters and the press and release lines printed so far are kept,
    and a second cleanup changes nothing. *)
Theorem cleanup_clears_and_keeps_counters st :
  global_input_lock st = false ->
  exists st',
    emergency_cleanup st = Done st'
    /\ button_states st' = ∅ /\ notes st' = [] /\ active_notes st' = ∅
    /\ last_axis_states st' = ∅ /\ last_global_button_states st' = ∅
    /\ last_hat_state st' = (0, 0)%Z
    /\ button_press_count st' = button_press_count st
    /\ total_presses st' = total_presses st
    /\ console st' = console st
    /\ emergency_cleanup st' = Done st'.
Proof.
  intros Hfree.
  destruct (emergency_cleanup_result st Hfree)
    as (st' & H & _ & Hb & Hn & Ha & Hx & Hg & Hh & Hc & Ht & Hl & _).
  exists st'. split; [done |].
  split; [done |]. split; [done |]. split; [done |]. split; [done |].
  split; [done |]. split; [done |]. split; [done |]. split; [done |].
  split; [done |]. by eapply emergency_cleanup_twice.
Qed.

Lemma cleanup_clears_and_keeps_counters_witness :
  exists st',
    emergency_cleanup stuck_state = Done st'
    /\ button_states st' = ∅
    /\ total_presses st' = total_presses stuck_state.
Proof.
  destruct (cleanup_clears_and_keeps_counters stuck_state eq_refl)
    as (st' & H & Hb & _ & _ & _ & _ & _ & _ & Ht & _).
  exists st'. split; [exact H |]. split; [exact Hb | exact Ht].
Defined.
